(** * si: logistic regression, cross-validation and grid search

    A shallow embedding of the estimator and model-selection core of the
    [si] package:

    - [src/si/linear_model/logistic_regression.py]  ([LogisticRegression])
    - [src/si/model_selection/cross_validate.py]    ([cross_validate])
    - [src/si/model_selection/grid_search.py]       ([grid_search])
    - [src/si/data/dataset.py]                      ([Dataset], the two
      fields and [get_shape], which is all the core reads)

    and of what surrounds it:

    - [src/si/data/dataset.py]                      ([Dataset] with its
      feature and label names, module [Data])
    - [src/si/feature_extraction/k_mer.py]          ([KMer])

    Python objects that are mutated in place (the estimator, the global
    random generator, the dictionaries that hold scores and parameter
    assignments) live in an explicit state; exceptions are values of an
    error type and leave the state as it was when they were raised. *)

From Stdlib Require Import ZArith QArith Qcanon Lia.
From Stdlib Require Import Floats.SpecFloat Ascii.
From stdpp Require Import base option list strings pretty gmap.

Set Default Proof Using "Type".
Local Open Scope Z_scope.
Local Open Scope string_scope.
Local Open Scope nat_scope.
Local Open Scope list_scope.

(** ** Exceptions and the state-and-exception monad *)

(** The Python exceptions the modelled code can raise.  [AttributeError]
    carries its message, which [grid_search] builds.  [NotFittedError] is
    the condition the specification names for an estimator used before
    [fit]; it is part of the vocabulary so that statements about it can be
    written, and no path of the source raises it. *)
Inductive exn : Type :=
| AttributeError (msg : string)
| TypeError
| ValueError
| ZeroDivisionError
| KeyError
| NotFittedError.

Inductive result (A : Type) : Type :=
| Ok (a : A)
| Raise (e : exn).
Arguments Ok {A} a.
Arguments Raise {A} e.

Definition is_ok {A} (r : result A) : bool :=
  match r with Ok _ => true | Raise _ => false end.

Definition res_bind {A B} (r : result A) (k : A → result B) : result B :=
  match r with
  | Ok a => k a
  | Raise e => Raise e
  end.

(** A computation on a mutable state [S]: it ends with a value or with an
    exception, and in both cases with the state it has reached. *)
Definition St (S A : Type) : Type := S → result A * S.

Definition ret {S A} (a : A) : St S A := λ s, (Ok a, s).
Definition raise {S A} (e : exn) : St S A := λ s, (Raise e, s).
Definition bind {S A B} (c : St S A) (k : A → St S B) : St S B :=
  λ s, match c s with
       | (Ok a, s') => k a s'
       | (Raise e, s') => (Raise e, s')
       end.
Definition get {S} : St S S := λ s, (Ok s, s).
Definition put {S} (s : S) : St S unit := λ _, (Ok tt, s).
Definition modify {S} (f : S → S) : St S unit := λ s, (Ok tt, f s).
Definition lift {S A} (r : result A) : St S A := λ s, (r, s).

Declare Scope py_scope.
Delimit Scope py_scope with py.
Notation "x <- c ;; k" := (bind c (λ x, k))
  (at level 100, c at next level, right associativity) : py_scope.
Notation "c ;; k" := (bind c (λ _, k))
  (at level 100, right associativity) : py_scope.
Notation "x <~ r ;; k" := (res_bind r (λ x, k))
  (at level 100, r at next level, right associativity) : py_scope.

(** [for x in xs: body] where the body may execute [return v]: the body
    answers [Some v] when it returns from the enclosing function and
    [None] when it reaches its end, and the loop answers [None] when it is
    exhausted. *)
Fixpoint for_in {S A R} (xs : list A) (body : A → St S (option R))
  : St S (option R) :=
  match xs with
  | [] => ret None
  | x :: xs' =>
      (r <- body x ;;
       match r with
       | Some v => ret (Some v)
       | None => for_in xs' body
       end)%py
  end.

(** [range(n)] for a Python int [n]: empty when [n <= 0]. *)
Definition range (n : Z) : list nat := seq 0 (Z.to_nat n).

(** ** Numbers

    numpy computes in IEEE binary64.  The embedding is written once over
    the operations the code uses, so that it can be read both in binary64
    (module [B64] below, where saturation, infinities and NaN exist) and
    in exact rational arithmetic (module [Exact], where the algebraic
    identities the specification's formulas take for granted hold). *)
Class Arith (F : Type) : Type := {
  f0 : F;                       (* 0.0 *)
  f1 : F;                       (* 1.0 *)
  fadd : F → F → F;
  fsub : F → F → F;
  fmul : F → F → F;
  fdiv : F → F → F;
  fneg : F → F;
  flt : F → F → bool;           (* x < y *)
  fge : F → F → bool;           (* x >= y *)
  of_Z : Z → F;                 (* float(n) for a Python int n *)
  c_half : F;                   (* the literal 0.5 *)
  c_tol : F                     (* the literal 0.0001 *)
}.

(** What the estimator imports and [src/] does not contain:
    [si.statistics.sigmoid_function.sigmoid_function] and
    [si.metrics.accuracy.accuracy], together with numpy's [log].  They are
    parameters of the development.  [sigmoid_function] and [np_log] act on
    arrays element by element, so each is given by its action on one
    element; [accuracy] receives the label vector (which may be [None])
    and the predictions. *)
Class Externals (F : Type) : Type := {
  np_log : F → F;
  sigmoid_function : F → F;
  accuracy : option (list F) → list F → result F
}.

(** Python values that are stored in attributes and dictionaries. *)
#[warnings="-register-all"]
Inductive pyval (F : Type) : Type :=
| PNone
| PInt (z : Z)
| PFloat (x : F)
| PList (l : list (pyval F))
| PRef (l : nat)                (* reference to a dictionary on the heap *)
| PObject.                      (* any other object, not looked into *)
Arguments PNone {F}.
Arguments PInt {F} z.
Arguments PFloat {F} x.
Arguments PList {F} l.
Arguments PRef {F} l.
Arguments PObject {F}.

Section Numpy.
Context {F : Type} `{Arith F}.

(** A number used as an operand of float arithmetic. *)
Definition as_float (v : pyval F) : result F :=
  match v with
  | PInt z => Ok (of_Z z)
  | PFloat x => Ok x
  | _ => Raise TypeError
  end.

(** [a / m] for [m] a Python int (a component of a shape). *)
Definition py_div (a : pyval F) (m : nat) : result F :=
  (x <~ as_float a ;;
   if decide (m = 0) then Raise ZeroDivisionError
   else Ok (fdiv x (of_Z (Z.of_nat m))))%py.

Definition np_zeros (n : nat) : list F := replicate n f0.

(** [np.sum] of a vector: the reduction of [+] over its elements, zero
    for an empty vector.  numpy adds long arrays pairwise in blocks; the
    elements are added from the left here. *)
Definition np_sum (v : list F) : F :=
  match v with
  | [] => f0
  | x :: v' => foldl fadd x v'
  end.

(** Inner product of two vectors of one length, accumulated from zero. *)
Definition inner (u v : list F) : F := foldl fadd f0 (zip_with fmul u v).

(** Element-wise binary operation with numpy's broadcasting of vectors:
    equal lengths, or one operand of length one. *)
Definition broadcast (f : F → F → F) (u v : list F) : result (list F) :=
  if decide (length u = length v) then Ok (zip_with f u v)
  else match u, v with
       | [a], _ => Ok (map (f a) v)
       | _, [b] => Ok (map (λ a, f a b) u)
       | _, _ => Raise ValueError
       end.

(** [np.dot(X, theta)]: matrix (m, n) by vector (n,). *)
Definition np_dot_mv (X : list (list F)) (theta : list F) : result (list F) :=
  if forallb (λ row, Nat.eqb (length row) (length theta)) X
  then Ok (map (λ row, inner row theta) X)
  else Raise ValueError.

Definition column (j : nat) (X : list (list F)) : list F :=
  map (λ row, nth j row f0) X.

Definition ncols (X : list (list F)) : nat := length (hd [] X).

(** [np.dot(v, X)]: vector (m,) by matrix (m, n). *)
Definition np_dot_vm (v : list F) (X : list (list F)) : result (list F) :=
  if decide (length v = length X)
  then Ok (map (λ j, inner v (column j X)) (seq 0 (ncols X)))
  else Raise ValueError.

(** [a[mask] = x]. *)
Definition masked_assign (a : list F) (mask : list bool) (x : F) : list F :=
  zip_with (λ ai (b : bool), if b then x else ai) a mask.
End Numpy.

(** ** Dataset ([src/si/data/dataset.py])

    [X] is the feature matrix as the list of its rows and [y] the optional
    label vector.  An array without rows is taken to have no columns. *)
Record Dataset (F : Type) : Type := mkDataset {
  X : list (list F);
  y : option (list F)
}.
Arguments mkDataset {F} X y.
Arguments X {F} d.
Arguments y {F} d.

Definition get_shape {F} (d : Dataset F) : nat * nat :=
  (length (X d), length (hd [] (X d))).

Definition has_label {F} (d : Dataset F) : bool :=
  match y d with None => false | Some _ => true end.

(** ** LogisticRegression ([src/si/linear_model/logistic_regression.py]) *)

Module LogisticRegression.

(** The instance attributes.  The three hyper-parameters hold whatever
    Python value the constructor or [setattr] stored; [theta] and
    [theta_zero] are [None] until [fit] assigns them; [cost_history] is
    the dictionary from iteration index to cost. *)
Record t (F : Type) : Type := mk {
  l2_penalty : pyval F;
  alpha : pyval F;
  max_iter : pyval F;
  theta : option (list F);
  theta_zero : option F;
  cost_history : gmap nat F
}.
Arguments mk {F}.
Arguments l2_penalty {F}.
Arguments alpha {F}.
Arguments max_iter {F}.
Arguments theta {F}.
Arguments theta_zero {F}.
Arguments cost_history {F}.

Definition set_l2_penalty {F} (v : pyval F) (self : t F) : t F :=
  mk v (alpha self) (max_iter self) (theta self) (theta_zero self)
     (cost_history self).
Definition set_alpha {F} (v : pyval F) (self : t F) : t F :=
  mk (l2_penalty self) v (max_iter self) (theta self) (theta_zero self)
     (cost_history self).
Definition set_max_iter {F} (v : pyval F) (self : t F) : t F :=
  mk (l2_penalty self) (alpha self) v (theta self) (theta_zero self)
     (cost_history self).
Definition set_theta {F} (v : option (list F)) (self : t F) : t F :=
  mk (l2_penalty self) (alpha self) (max_iter self) v (theta_zero self)
     (cost_history self).
Definition set_theta_zero {F} (v : option F) (self : t F) : t F :=
  mk (l2_penalty self) (alpha self) (max_iter self) (theta self) v
     (cost_history self).
Definition set_cost_history {F} (v : gmap nat F) (self : t F) : t F :=
  mk (l2_penalty self) (alpha self) (max_iter self) (theta self)
     (theta_zero self) v.

Section Methods.
Context {F : Type} `{Arith F} `{Externals F}.

(** [__init__(l2_penalty, alpha, max_iter)]. *)
Definition init (l2_penalty alpha max_iter : pyval F) : t F :=
  mk l2_penalty alpha max_iter None None ∅.

(** Arithmetic between a float array and [None]: numpy applies the
    operator element by element to Python objects and the first
    element raises [TypeError]; an array without elements raises
    nothing and stays empty. *)
Definition none_operand (a : list F) : result (list F) :=
  match a with
  | [] => Ok []
  | _ :: _ => Raise TypeError
  end.

(** [np.dot(dataset.X, self.theta) + self.theta_zero]. *)
Definition linear_score (dataset : Dataset F) (self : t F)
  : result (list F) :=
  (d <~ match theta self with
        | Some th => np_dot_mv (X dataset) th
        | None => none_operand (concat (X dataset))
        end ;;
   match theta_zero self with
   | Some b => Ok (map (λ z, fadd z b) d)
   | None => none_operand d
   end)%py.

(** [a - dataset.y], [a * dataset.y]: the labels may be [None]. *)
Definition with_labels (f : F → F → F) (a : list F)
    (labels : option (list F)) : result (list F) :=
  match labels with
  | Some ys => broadcast f a ys
  | None => none_operand a
  end.

(** [cost(self, dataset)]. *)
Definition cost (dataset : Dataset F) (self : t F) : result F :=
  (z <~ linear_score dataset self ;;
   let predictions := map sigmoid_function z in
   (* (-dataset.y * np.log(predictions)) *)
   neg_y <~ match y dataset with
            | Some ys => Ok (map fneg ys)
            | None => Raise TypeError
            end ;;
   left <~ broadcast fmul neg_y (map np_log predictions) ;;
   (* ((1 - dataset.y) * np.log(1 - predictions)) *)
   one_minus_y <~ match y dataset with
                  | Some ys => Ok (map (fsub f1) ys)
                  | None => Raise TypeError
                  end ;;
   right <~ broadcast fmul one_minus_y
              (map np_log (map (fsub f1) predictions)) ;;
   cost <~ broadcast fsub left right ;;
   let m := fst (get_shape dataset) in
   let cost := fdiv (np_sum cost) (of_Z (Z.of_nat m)) in
   (* cost + (l2_penalty * np.sum(theta ** 2) / (2 * m)),
      where theta ** 2 squares each element *)
   th <~ match theta self with
         | Some th => Ok th
         | None => Raise TypeError
         end ;;
   l2 <~ as_float (l2_penalty self) ;;
   Ok (fadd cost
         (fdiv (fmul l2 (np_sum (map (λ x, fmul x x) th)))
               (of_Z (2 * Z.of_nat m)))))%py.

(** [self.cost_history[i]]. *)
Definition cost_history_get (i : nat) (self : t F) : result F :=
  match cost_history self !! i with
  | Some c => Ok c
  | None => Raise KeyError
  end.

(** The body of the gradient-descent loop of [fit] for iteration [i], up
    to the record of the cost; [m] is the number of samples.  The source
    writes [alpha * (1 / m)] and [y_pred - dataset.y] twice, with the same
    operands; they are computed once here. *)
Definition gradient_step (dataset : Dataset F) (m : nat) (i : nat)
  : St (t F) unit :=
  (self <- get ;;
   (* predicted y *)
   y_pred <- lift (linear_score dataset self) ;;
   (* gradient = (alpha * (1 / m)) * np.dot(y_pred - y, X) *)
   inv_m <- lift (py_div (PInt 1) m) ;;
   a <- lift (as_float (alpha self)) ;;
   residual <- lift (with_labels fsub y_pred (y dataset)) ;;
   g <- lift (np_dot_vm residual (X dataset)) ;;
   let gradient := map (fmul (fmul a inv_m)) g in
   (* penalization_term = alpha * (l2_penalty / m) * theta *)
   l2_m <- lift (py_div (l2_penalty self) m) ;;
   th <- lift (match theta self with
               | Some th => Ok th
               | None => Raise TypeError
               end) ;;
   let penalization_term := map (fmul (fmul a l2_m)) th in
   (* theta = theta - gradient - penalization_term *)
   th1 <- lift (broadcast fsub th gradient) ;;
   th2 <- lift (broadcast fsub th1 penalization_term) ;;
   modify (set_theta (Some th2)) ;;
   (* theta_zero = theta_zero - (alpha * (1 / m)) * np.sum(y_pred - y) *)
   b <- lift (match theta_zero self with
              | Some b => Ok b
              | None => Raise TypeError
              end) ;;
   modify (set_theta_zero
             (Some (fsub b (fmul (fmul a inv_m) (np_sum residual))))) ;;
   (* cost_history[i] = self.cost(dataset) *)
   self <- get ;;
   c <- lift (cost dataset self) ;;
   modify (set_cost_history (<[i := c]> (cost_history self))))%py.

(** The test that ends the loop early:
    [if i > 0: if cost_history[i-1] - cost_history[i] < 0.0001: return self].
    It answers [Some tt] when it executes [return self]. *)
Definition convergence_check (i : nat) : St (t F) (option unit) :=
  (if decide (0 < i) then
     self <- get ;;
     previous <- lift (cost_history_get (i - 1) self) ;;
     current <- lift (cost_history_get i self) ;;
     if flt (fsub previous current) c_tol then ret (Some tt)
     else ret None
   else ret None)%py.

(** The body of the loop of [fit]. *)
Definition fit_iteration (dataset : Dataset F) (m : nat) (i : nat)
  : St (t F) (option unit) :=
  (gradient_step dataset m i ;; convergence_check i)%py.

(** [range(self.max_iter)]. *)
Definition iterations (self : t F) : result (list nat) :=
  match max_iter self with
  | PInt n => Ok (range n)
  | _ => Raise TypeError
  end.

(** [fit(self, dataset)]; the returned [self] is the final state. *)
Definition fit (dataset : Dataset F) : St (t F) unit :=
  (let '(m, n) := get_shape dataset in
   modify (set_theta (Some (np_zeros n))) ;;
   modify (set_theta_zero (Some f0)) ;;
   self <- get ;;
   indices <- lift (iterations self) ;;
   _ <- for_in indices (fit_iteration dataset m) ;;
   ret tt)%py.

(** [predict(self, dataset)]. *)
Definition predict (dataset : Dataset F) (self : t F) : result (list F) :=
  (z <~ linear_score dataset self ;;
   let predictions := map sigmoid_function z in
   let mask := map (λ p, fge p c_half) predictions in
   let predictions := masked_assign predictions mask f1 in
   let predictions := masked_assign predictions (map negb mask) f0 in
   Ok predictions)%py.

(** [score(self, dataset)]. *)
Definition score (dataset : Dataset F) (self : t F) : result F :=
  (y_pred <~ predict dataset self ;;
   accuracy (y dataset) y_pred)%py.
End Methods.
End LogisticRegression.

(** ** Model selection *)

(** What [cross_validate] and [grid_search] ask of the [model] they are
    given: attributes that can be read and assigned by name ([hasattr],
    [setattr]), the methods [fit] and [score], which act on the model in
    place (and on nothing else), and the text [f"{model}"] puts in a
    message. *)
Class Estimator (F M : Type) : Type := {
  getattr : M → string → option (pyval F);
  setattr : string → pyval F → M → M;
  model_fit : Dataset F → St M unit;
  model_score : Dataset F → St M F;
  model_str : M → string
}.

Definition hasattr {F M} `{Estimator F M} (model : M) (name : string) : bool :=
  bool_decide (is_Some (getattr model name)).

(** The global random generator of numpy, and
    [si.model_selection.split.train_test_split], which [src/] does not
    contain and which may draw from that generator: parameters of the
    development. *)
Class Sampling (F R : Type) : Type := {
  randint : Z → Z → St R Z;
  train_test_split : Dataset F → F → Z → St R (Dataset F * Dataset F)
}.

(** A Python [dict] with string keys, in insertion order. *)
Definition dict (F : Type) : Type := list (string * pyval F).

Definition dict_get {F} (k : string) (d : dict F) : option (pyval F) :=
  snd <$> find (λ kv, bool_decide (kv.1 = k)) d.

Fixpoint dict_set {F} (k : string) (v : pyval F) (d : dict F) : dict F :=
  match d with
  | [] => [(k, v)]
  | (k', v') :: d' =>
      if decide (k' = k) then (k, v) :: d' else (k', v') :: dict_set k v d'
  end.

(** Everything the model-selection routines mutate: the one model
    instance they are handed, the random generator, and the dictionaries
    they create, which are addressed by their position in [heap]. *)
Record World (F M R : Type) : Type := mkWorld {
  model : M;
  rng : R;
  heap : list (dict F)
}.
Arguments mkWorld {F M R}.
Arguments model {F M R}.
Arguments rng {F M R}.
Arguments heap {F M R}.

(** [itertools.product] of the pools, as its documentation defines it:
    [result = [[]]], then for each pool
    [result = [x + [y] for x in result for y in pool]]. *)
Definition product {A} (pools : list (list A)) : list (list A) :=
  foldl (λ result pool, x ← result; y ← pool; [x ++ [y]]) [[]] pools.

(** [for x in xs: body], for a body without [return]. *)
Fixpoint for_each {S A} (xs : list A) (body : A → St S unit) : St S unit :=
  match xs with
  | [] => ret tt
  | x :: xs' => (body x ;; for_each xs' body)%py
  end.

(** [for x in xs: acc = body(x, acc)], for a loop that rebuilds a local. *)
Fixpoint for_acc {S A B} (xs : list A) (acc : B) (body : A → B → St S B)
  : St S B :=
  match xs with
  | [] => ret acc
  | x :: xs' => (acc' <- body x acc ;; for_acc xs' acc' body)%py
  end.

Section ModelSelection.
Context {F M R : Type} `{Estimator F M} `{Sampling F R}.

Definition on_model {A} (c : St M A) : St (World F M R) A :=
  λ w, let '(r, m') := c (model w) in (r, mkWorld m' (rng w) (heap w)).

Definition on_rng {A} (c : St R A) : St (World F M R) A :=
  λ w, let '(r, g') := c (rng w) in (r, mkWorld (model w) g' (heap w)).

(** [{...}]: a new dictionary. *)
Definition new_dict (d : dict F) : St (World F M R) (pyval F) :=
  λ w, (Ok (PRef (length (heap w))),
        mkWorld (model w) (rng w) (heap w ++ [d])).

(** [target[k] = v]; [None] and numbers do not support item assignment.
    References are created by [new_dict] only and always point into the
    heap. *)
Definition setitem (target : pyval F) (k : string) (v : pyval F)
  : St (World F M R) unit :=
  λ w, match target with
       | PRef l =>
           match heap w !! l with
           | Some d =>
               (Ok tt, mkWorld (model w) (rng w)
                         (<[l := dict_set k v d]> (heap w)))
           | None => (Raise KeyError, w)
           end
       | _ => (Raise TypeError, w)
       end.

(** [target[k].append(v)]. *)
Definition list_append (target : pyval F) (k : string) (v : pyval F)
  : St (World F M R) unit :=
  λ w, match target with
       | PRef l =>
           match heap w !! l with
           | Some d =>
               match dict_get k d with
               | Some (PList xs) =>
                   (Ok tt, mkWorld (model w) (rng w)
                             (<[l := dict_set k (PList (xs ++ [v])) d]>
                                (heap w)))
               | Some _ => (Raise (AttributeError "append"), w)
               | None => (Raise KeyError, w)
               end
           | None => (Raise KeyError, w)
           end
       | _ => (Raise TypeError, w)
       end.

(** [cross_validate(model, dataset, scoring, cv, test_size)]
    ([src/si/model_selection/cross_validate.py]).  The [return scores]
    of the source closes the body of the [for] loop. *)
Definition cross_validate (dataset : Dataset F)
    (scoring : option (option (list F) → F → result F))
    (cv : Z) (test_size : F) : St (World F M R) (pyval F) :=
  (scores <- new_dict [("seeds", PList []); ("train", PList []);
                       ("test", PList [])] ;;
   r <- for_in (range cv) (λ i : nat,
     random_state <- on_rng (randint 0 1000) ;;
     list_append scores "seeds" (PInt random_state) ;;
     split <- on_rng (train_test_split dataset test_size random_state) ;;
     let train := fst split in
     let test := snd split in
     on_model (model_fit train) ;;
     match scoring with
     | None =>
         s <- on_model (model_score train) ;;
         list_append scores "train" (PFloat s) ;;
         s <- on_model (model_score test) ;;
         list_append scores "test" (PFloat s)
     | Some scoring =>
         let y_train := y train in
         let y_test := y test in
         s <- on_model (model_score train) ;;
         v <- lift (scoring y_train s) ;;
         list_append scores "train" (PFloat v) ;;
         s <- on_model (model_score train) ;;
         v <- lift (scoring y_test s) ;;
         list_append scores "test" (PFloat v)
     end ;;
     ret (Some scores)) ;;
   (* a loop that never ran falls off the end of the function *)
   ret (match r with Some v => v | None => PNone end))%py.

(** The body of the loop of [grid_search] over the combinations:
    [keys] are the keys of the grid and [scores] is the list built so
    far; it answers the list after [scores.append(score)]. *)
Definition grid_point (dataset : Dataset F) (keys : list string)
    (scoring : option (option (list F) → F → result F))
    (cv : Z) (test_size : F)
    (combination : list (pyval F)) (scores : list (pyval F))
  : St (World F M R) (list (pyval F)) :=
  ((* parameter configuration *)
   parameters <- new_dict [] ;;
   (* set the parameters *)
   for_each (zip keys combination) (λ pv,
     let parameter := fst pv in
     let value := snd pv in
     on_model (modify (setattr parameter value)) ;;
     setitem parameters parameter value) ;;
   (* cross validate the model *)
   score <- cross_validate dataset scoring cv test_size ;;
   (* add the parameter configuration *)
   setitem score "parameters" parameters ;;
   (* add the score *)
   ret (scores ++ [score]))%py.

(** [grid_search(model, dataset, parameter_grid, scoring, cv, test_size)]
    ([src/si/model_selection/grid_search.py]).  [parameter_grid] is a
    dictionary from names to sequences of values, given by its items in
    key order: [parameter_grid.*1] are its keys and [parameter_grid.*2]
    its values. *)
Definition grid_search (dataset : Dataset F)
    (parameter_grid : list (string * list (pyval F)))
    (scoring : option (option (list F) → F → result F))
    (cv : Z) (test_size : F) : St (World F M R) (list (pyval F)) :=
  ((* validate the parameter grid *)
   for_each parameter_grid.*1 (λ parameter,
     w <- get ;;
     if hasattr (model w) parameter then ret tt
     else raise (AttributeError
                   ("Model " +:+ model_str (model w) +:+
                    " does not have parameter " +:+ parameter +:+ "."))) ;;
   (* for each combination *)
   for_acc (product parameter_grid.*2) []
     (grid_point dataset parameter_grid.*1 scoring cv test_size))%py.
End ModelSelection.

(** ** Instances *)

(** *** IEEE binary64

    The arithmetic numpy computes with, as the Standard Library specifies
    it ([SpecFloat], precision 53 and maximal exponent 1024): signed
    zeros, infinities, one NaN, rounding to nearest even. *)
Module B64.
Definition prec : Z := 53.
Definition emax : Z := 1024.

Abbreviation float := spec_float.

Definition add : float → float → float := SFadd prec emax.
Definition sub : float → float → float := SFsub prec emax.
Definition mul : float → float → float := SFmul prec emax.
Definition div : float → float → float := SFdiv prec emax.
Definition neg : float → float := SFopp.
Definition ltb : float → float → bool := SFltb.
Definition geb (x y : float) : bool := SFleb y x.
Definition from_Z (z : Z) : float := binary_normalize prec emax z 0 false.
Definition ldexp (x : float) (e : Z) : float := SFldexp prec emax x e.

Definition zero : float := S754_zero false.
Definition one : float := from_Z 1.
Definition half : float := ldexp one (-1).
Definition tol : float := div one (from_Z 10000).
Definition inf : float := S754_infinity false.
Definition nan : float := S754_nan.

(** A value that is not a finite number: an infinity or NaN. *)
Definition nonfinite (x : float) : bool :=
  match x with
  | S754_infinity _ | S754_nan => true
  | _ => false
  end.

(** [1 + r + r^2/2! + ... + r^n/n!], by Horner's rule. *)
Fixpoint exp_series (n : nat) (k : Z) (r : float) : float :=
  match n with
  | O => one
  | S n' => add one (mul (div r (from_Z k)) (exp_series n' (k + 1) r))
  end.

Definition square_times (n : nat) (x : float) : float :=
  Nat.iter n (λ v, mul v v) x.

(** [np.exp]: the special values of IEEE 754; overflow to infinity and
    underflow to zero outside the range of binary64; inside it, the
    series at [x / 2^10] squared ten times. *)
Definition exp (x : float) : float :=
  match x with
  | S754_nan => nan
  | S754_infinity false => inf
  | S754_infinity true => zero
  | S754_zero _ => one
  | S754_finite _ _ _ =>
      if ltb (from_Z 710) x then inf
      else if ltb x (from_Z (-746)) then zero
      else square_times 10 (exp_series 20 1 (ldexp x (-10)))
  end.

Definition ln2 : float := S754_finite false 6243314768165359 (-53).
Definition sqrt_half : float := S754_finite false 6369051672525773 (-53).

(** [t + t^3/3 + t^5/5 + ...], [n] terms after the first. *)
Fixpoint atanh_series (n : nat) (k : Z) (t2 : float) : float :=
  match n with
  | O => div one (from_Z k)
  | S n' => add (div one (from_Z k)) (mul t2 (atanh_series n' (k + 2) t2))
  end.

(** [np.log]: [log(0) = -inf] (for both zeros), NaN for negative
    arguments, and for [x = f * 2^e] with [f] near one,
    [e * ln 2 + 2 * atanh ((f - 1) / (f + 1))]. *)
Definition log (x : float) : float :=
  match x with
  | S754_nan => nan
  | S754_zero _ => S754_infinity true
  | S754_infinity false => inf
  | S754_infinity true => nan
  | S754_finite true _ _ => nan
  | S754_finite false _ _ =>
      let '(f, e) := SFfrexp prec emax x in
      let '(f, e) := if ltb f sqrt_half then (ldexp f 1, (e - 1)%Z)
                     else (f, e) in
      let t := div (sub f one) (add f one) in
      add (mul (from_Z e) ln2)
          (mul (from_Z 2) (mul t (atanh_series 14 1 (mul t t))))
  end.

(** The largest integer not above [x], for finite [x]. *)
Definition floor (x : float) : Z :=
  match x with
  | S754_finite s m e =>
      let v := if s then Zneg m else Zpos m in
      (if Z.leb 0 e then v * 2 ^ e else v / 2 ^ (- e))%Z
  | _ => 0%Z
  end.

#[export] Instance arith : Arith float := {|
  f0 := zero; f1 := one;
  fadd := add; fsub := sub; fmul := mul; fdiv := div; fneg := neg;
  flt := ltb; fge := geb;
  of_Z := from_Z;
  c_half := half; c_tol := tol
|}.

(** Modelled from the spec: [sigmoid_function], the logistic activation
    [1 / (1 + e^(-x))], which [src/] does not contain. *)
Definition sigmoid (x : float) : float :=
  div one (add one (exp (neg x))).

(** Modelled from the spec: [accuracy], the fraction of exact matches
    between the true labels and the predictions, which [src/] does not
    contain. *)
Definition accuracy_score (y_true : option (list float))
    (y_pred : list float) : result float :=
  match y_true with
  | None => Raise TypeError
  | Some ys =>
      (eq <~ broadcast (λ a b, if SFeqb a b then one else zero) ys y_pred ;;
       Ok (div (np_sum eq) (from_Z (Z.of_nat (length ys)))))%py
  end.

#[export] Instance externals : Externals float := {|
  np_log := log;
  sigmoid_function := sigmoid;
  accuracy := accuracy_score
|}.
End B64.

(** *** Exact rational arithmetic

    The field of rationals in canonical form, where equal numbers are
    equal terms.  The logistic function and the logarithm are not
    rational; this instance carries rational functions in their place
    (the squashing [1/2 + x / (2 (1 + |x|))] and the first terms of the
    [atanh] series of the logarithm).  It serves the statements about the
    algebra of the update rule, which do not depend on them. *)
Module Exact.
Definition ltb (x y : Qc) : bool :=
  match (x ?= y)%Qc with Lt => true | _ => false end.
Definition geb (x y : Qc) : bool :=
  match (x ?= y)%Qc with Lt => false | _ => true end.
Definition from_Z (z : Z) : Qc := Q2Qc (inject_Z z).
Definition abs (x : Qc) : Qc := if ltb x 0%Qc then (- x)%Qc else x.

#[export] Instance arith : Arith Qc := {|
  f0 := 0%Qc; f1 := 1%Qc;
  fadd := Qcplus; fsub := Qcminus; fmul := Qcmult; fdiv := Qcdiv;
  fneg := Qcopp;
  flt := ltb; fge := geb;
  of_Z := from_Z;
  c_half := Q2Qc (1 # 2); c_tol := Q2Qc (1 # 10000)
|}.

Definition squash (x : Qc) : Qc :=
  (Q2Qc (1 # 2) + x / (from_Z 2 * (1 + abs x)))%Qc.

Definition log_approx (x : Qc) : Qc :=
  (let t := (x - 1) / (x + 1) in
   from_Z 2 * t * (1 + t * t / from_Z 3))%Qc.

(** Modelled from the spec: [accuracy], the fraction of exact matches
    between the true labels and the predictions, which [src/] does not
    contain. *)
Definition accuracy_score (y_true : option (list Qc)) (y_pred : list Qc)
  : result Qc :=
  match y_true with
  | None => Raise TypeError
  | Some ys =>
      (eq <~ broadcast (λ a b, if Qc_eq_dec a b then 1%Qc else 0%Qc)
               ys y_pred ;;
       Ok (np_sum eq / from_Z (Z.of_nat (length ys)))%Qc)%py
  end.

#[export] Instance externals : Externals Qc := {|
  np_log := log_approx;
  sigmoid_function := squash;
  accuracy := accuracy_score
|}.
End Exact.

(** *** LogisticRegression as the model of the model-selection routines

    [getattr] answers for the instance attributes and the methods of the
    class; an attribute that holds an array, a dictionary or a method is
    seen as [PObject].  [setattr] assigns the three hyper-parameters;
    assignments to the other names are outside this instance and leave
    the state as it is.  [f"{model}"] is the default representation of
    the object, without its address. *)
Section LogisticRegressionEstimator.
Context {F : Type} `{Arith F} `{Externals F}.
Import LogisticRegression.

Definition lr_getattr (self : t F) (name : string) : option (pyval F) :=
  if decide (name = "l2_penalty") then Some (l2_penalty self)
  else if decide (name = "alpha") then Some (alpha self)
  else if decide (name = "max_iter") then Some (max_iter self)
  else if decide (name = "theta") then
    Some (match theta self with None => PNone | Some _ => PObject end)
  else if decide (name = "theta_zero") then
    Some (match theta_zero self with None => PNone | Some b => PFloat b end)
  else if decide (name ∈ ["cost_history"; "fit"; "predict"; "score"; "cost"])
  then Some PObject
  else None.

Definition lr_setattr (name : string) (v : pyval F) (self : t F) : t F :=
  if decide (name = "l2_penalty") then set_l2_penalty v self
  else if decide (name = "alpha") then set_alpha v self
  else if decide (name = "max_iter") then set_max_iter v self
  else self.

#[global] Instance lr_estimator : Estimator F (t F) := {|
  getattr := lr_getattr;
  setattr := lr_setattr;
  model_fit := fit;
  model_score dataset := λ self, (score dataset self, self);
  model_str _ :=
    "<src.si.linear_model.logistic_regression.LogisticRegression object>"
|}.
End LogisticRegressionEstimator.

(** *** A random generator and a split

    The generator is a linear congruential one over its last output. *)
Module Sampler.
Definition next (s : Z) : Z := ((1103515245 * s + 12345) mod 2147483648)%Z.

Definition lcg_randint (low high : Z) : St Z Z :=
  λ s, (Ok (low + next s mod (high - low))%Z, next s).

Definition rotate {A} (k : nat) (l : list A) : list A :=
  drop k l ++ take k l.

(** Modelled from the spec: [train_test_split], which [src/] does not
    contain: it splits a dataset into a train and a test partition
    given a ratio and a random seed.  Here the seed selects a rotation
    of the samples, the first [int(n_samples * test_size)] of which
    become the test partition. *)
Definition split (dataset : Dataset B64.float) (test_size : B64.float)
    (random_state : Z) : St Z (Dataset B64.float * Dataset B64.float) :=
  let n_samples := length (X dataset) in
  let n_test :=
    Z.to_nat (B64.floor (B64.mul (B64.from_Z (Z.of_nat n_samples))
                                 test_size)) in
  let k := Z.to_nat (random_state mod Z.of_nat n_samples) in
  let rows := rotate k (X dataset) in
  let labels := rotate k <$> y dataset in
  ret (mkDataset (drop n_test rows) (drop n_test <$> labels),
       mkDataset (take n_test rows) (take n_test <$> labels)).

#[export] Instance sampling : Sampling B64.float Z := {|
  randint := lcg_randint;
  train_test_split := split
|}.
End Sampler.

(** ** Inputs of the examples *)

Module Example.
Import B64 LogisticRegression.

Definition num (z : Z) : float := from_Z z.

(** The learning rate of the constructor's default, 0.001. *)
Definition milli : float := div one (num 1000).

(** Five samples with two features and binary labels. *)
Definition samples : list (list float) :=
  [[num 1; num 2]; [num 2; num 1]; [num 3; num 5]; [num (-1); num 0];
   [num 0; num 4]].
Definition labels : list float := [num 1; num 0; num 1; num 0; num 1].
Definition dataset : Dataset float := mkDataset samples (Some labels).

(** [LogisticRegression(l2_penalty=1, alpha=0.001, max_iter=3)] and the
    estimator of the default arguments. *)
Definition estimator : t float := init (PInt 1) (PFloat milli) (PInt 3).
Definition default_estimator : t float :=
  init (PInt 1) (PFloat milli) (PInt 1000).

Definition world : World float (t float) Z := mkWorld estimator 42%Z [].

Definition grid : list (string * list (pyval float)) :=
  [("l2_penalty", [PInt 1; PInt 10]); ("max_iter", [PInt 1; PInt 2; PInt 3])].

Definition unknown_grid : list (string * list (pyval float)) :=
  [("l2_penalty", [PInt 1; PInt 10]); ("penalty", [PInt 1])].

Definition test_size : float := div (num 2) (num 5).

(** [lambda y_true, score: score]. *)
Definition identity_scoring : option (list float) → float → result float :=
  λ _ s, Ok s.

(** Two samples whose first feature is of the order of a hundred. *)
Definition wide : Dataset float :=
  mkDataset [[num 100; num 3]; [num (-100); num 1]] (Some [num 1; num 0]).

(** One sample whose score under the weight 1 is 1000. *)
Definition far : Dataset float := mkDataset [[num 1000]] (Some [num 0]).
Definition unit_weight : t float :=
  mk (PInt 1) (PFloat milli) (PInt 1000) (Some [num 1]) (Some zero) ∅.

End Example.

(** ** Definitions used by the statements *)

(** The dictionary [cross_validate] builds, by the contents of its three
    lists. *)
Definition scores_dict {F} (seeds train test : list (pyval F)) : dict F :=
  [("seeds", PList seeds); ("train", PList train); ("test", PList test)].

(** [len(d[k])] for a dictionary entry that holds a list. *)
Definition entry_length {F} (k : string) (d : dict F) : option nat :=
  match dict_get k d with
  | Some (PList l) => Some (length l)
  | _ => None
  end.

(** The Cartesian product of the pools in their order, the first pool
    varying slowest: the order the specification asks of the records. *)
Fixpoint cartesian {A} (pools : list (list A)) : list (list A) :=
  match pools with
  | [] => [[]]
  | pool :: rest => x ← pool; c ← cartesian rest; [x :: c]
  end.

(** The number of points of a grid, [k1 * k2 * ... * kn]. *)
Definition grid_size {A} (pools : list (list A)) : nat :=
  foldr Nat.mul 1 (map length pools).

(** The dictionary filled by [parameters[parameter] = value] over the
    pairs of keys and values, and the model after the [setattr] calls. *)
Definition assignment {F} (kvs : list (string * pyval F)) : dict F :=
  foldl (λ d kv, dict_set kv.1 kv.2 d) [] kvs.

Definition assign_all {F M} `{Estimator F M}
    (kvs : list (string * pyval F)) (model : M) : M :=
  foldl (λ m kv, setattr kv.1 kv.2 m) model kvs.

(** The request that nothing the model-selection routines call raises. *)
Definition never_raises {F M R} `{Estimator F M} `{Sampling F R}
    (scoring : option (option (list F) → F → result F)) : Prop :=
  (∀ lo hi (g : R), is_ok (randint lo hi g).1) ∧
  (∀ (t : Dataset F) ts seed (g : R),
     is_ok (train_test_split t ts seed g).1) ∧
  (∀ (t : Dataset F) (m : M), is_ok (model_fit t m).1) ∧
  (∀ (t : Dataset F) (m : M), is_ok (model_score t m).1) ∧
  match scoring with
  | Some f => ∀ labels s, is_ok (f labels s)
  | None => True
  end.

(** The outcome of a run of [cross_validate] from the world [w], for a
    property [P] of the model. *)
Definition cross_validate_post {F M R} `{Estimator F M} `{Sampling F R}
    (P : M → Prop) (scoring : option (option (list F) → F → result F))
    (cv : Z) (w : World F M R)
    (r : result (pyval F)) (w' : World F M R) : Prop :=
  P (model w') ∧
  match r with
  | Ok v =>
      ((0 < cv)%Z ∧ v = PRef (length (heap w)) ∧
       ∃ a b c, heap w' = heap w ++ [scores_dict [a] [b] [c]]) ∨
      ((cv ≤ 0)%Z ∧ v = PNone ∧ heap w' = heap w ++ [scores_dict [] [] []])
  | Raise _ => ¬ never_raises scoring
  end.


(** The references [grid_search] returns when it starts with [L]
    dictionaries on the heap and visits [n] combinations, and the
    dictionaries it adds to the heap: for each combination its parameter
    assignment, then the scores of that combination, which refer to it. *)
Fixpoint grid_records {F} (L n : nat) : list (pyval F) :=
  match n with
  | O => []
  | S n' => PRef (S L) :: grid_records (S (S L)) n'
  end.

Inductive grid_heap {F} (keys : list string)
  : nat → list (list (pyval F)) → list (dict F) → Prop :=
| grid_heap_nil L : grid_heap keys L [] []
| grid_heap_cons L combination combos a b c ext :
    grid_heap keys (S (S L)) combos ext →
    grid_heap keys L (combination :: combos)
      (assignment (zip keys combination)
       :: dict_set "parameters" (PRef L) (scores_dict [a] [b] [c])
       :: ext).

Section EstimatorStatements.
Context {F : Type} `{Arith F} `{Externals F}.

(** A dataset the estimator is meant for: at least one sample, rows of
    one length, and one label for each sample. *)
Definition valid_dataset (dataset : Dataset F) (labels : list F) : Prop :=
  y dataset = Some labels ∧
  length labels = length (X dataset) ∧
  0 < length (X dataset) ∧
  Forall (λ row, length row = ncols (X dataset)) (X dataset).

(** The values one iteration of [fit] computes on such a dataset, from
    the learning rate [a], the penalty [l2], the weights [th] and the
    intercept [b], operation by operation as the source writes them. *)
Definition scores (X : list (list F)) (th : list F) (b : F) : list F :=
  map (λ z, fadd z b) (map (λ row, inner row th) X).

Definition residuals (X : list (list F)) (ys th : list F) (b : F) : list F :=
  zip_with fsub (scores X th b) ys.

Definition next_theta (a l2 : F) (X : list (list F)) (ys th : list F) (b : F)
  : list F :=
  let m := length X in
  let inv_m := fdiv (of_Z 1) (of_Z (Z.of_nat m)) in
  let g := map (λ j, inner (residuals X ys th b) (column j X))
               (seq 0 (ncols X)) in
  let gradient := map (fmul (fmul a inv_m)) g in
  let l2_m := fdiv l2 (of_Z (Z.of_nat m)) in
  let penalization_term := map (fmul (fmul a l2_m)) th in
  zip_with fsub (zip_with fsub th gradient) penalization_term.

Definition next_theta_zero (a : F) (X : list (list F)) (ys th : list F) (b : F)
  : F :=
  let inv_m := fdiv (of_Z 1) (of_Z (Z.of_nat (length X))) in
  fsub b (fmul (fmul a inv_m) (np_sum (residuals X ys th b))).

Definition cost_value (l2 : F) (X : list (list F)) (ys th : list F) (b : F)
  : F :=
  let predictions := map sigmoid_function (scores X th b) in
  let left := zip_with fmul (map fneg ys) (map np_log predictions) in
  let right := zip_with fmul (map (fsub f1) ys)
                 (map np_log (map (fsub f1) predictions)) in
  let m := length X in
  fadd (fdiv (np_sum (zip_with fsub left right)) (of_Z (Z.of_nat m)))
       (fdiv (fmul l2 (np_sum (map (λ x, fmul x x) th)))
             (of_Z (2 * Z.of_nat m))).

(** The state one iteration leaves. *)
Definition after_step (a l2 : F) (dataset : Dataset F) (ys : list F) (i : nat)
    (th : list F) (b : F) (self : LogisticRegression.t F)
  : LogisticRegression.t F :=
  let th' := next_theta a l2 (X dataset) ys th b in
  let b' := next_theta_zero a (X dataset) ys th b in
  LogisticRegression.mk
    (LogisticRegression.l2_penalty self) (LogisticRegression.alpha self)
    (LogisticRegression.max_iter self) (Some th') (Some b')
    (<[i := cost_value l2 (X dataset) ys th' b']>
       (LogisticRegression.cost_history self)).

(** The weights and the intercept after [k] iterations from the start
    [fit] gives them, the zero vector and zero, and the costs recorded on
    the way in a history [h]. *)
Definition descent_step (a l2 : F) (X : list (list F)) (ys : list F)
    (p : list F * F) : list F * F :=
  (next_theta a l2 X ys p.1 p.2, next_theta_zero a X ys p.1 p.2).

Definition descent (a l2 : F) (X : list (list F)) (ys : list F) (k : nat)
  : list F * F :=
  Nat.iter k (descent_step a l2 X ys) (np_zeros (ncols X), f0).

Fixpoint histories (a l2 : F) (X : list (list F)) (ys : list F) (k : nat)
    (h : gmap nat F) : gmap nat F :=
  match k with
  | O => h
  | S k' =>
      let p := descent a l2 X ys k in
      <[k' := cost_value l2 X ys p.1 p.2]> (histories a l2 X ys k' h)
  end.

Definition state_after (a l2 : F) (dataset : Dataset F) (ys : list F)
    (k : nat) (self : LogisticRegression.t F) : LogisticRegression.t F :=
  let p := descent a l2 (X dataset) ys k in
  LogisticRegression.mk
    (LogisticRegression.l2_penalty self) (LogisticRegression.alpha self)
    (LogisticRegression.max_iter self) (Some p.1) (Some p.2)
    (histories a l2 (X dataset) ys k (LogisticRegression.cost_history self)).





(** [cost_history[i-1] - cost_history[i] < 0.0001], read from a history. *)
Definition converged (i : nat) (history : gmap nat F) : bool :=
  match history !! (i - 1), history !! i with
  | Some previous, Some current => flt (fsub previous current) c_tol
  | _, _ => false
  end.

(** The test of iteration [i] that makes [fit] return. *)
Definition stops (i : nat) (history : gmap nat F) : bool :=
  bool_decide (0 < i) && converged i history.

(** The number of iterations a loop over [j, j+1, ..., j+len-1] runs
    when [stop i] tells whether iteration [i] returns. *)
Fixpoint iterations_run (stop : nat → bool) (j len : nat) : nat :=
  match len with
  | O => j
  | S len' => if stop j then S j else iterations_run stop (S j) len'
  end.

(** The hard labels of [predict]: one where the sigmoid of the score is
    at least 0.5, zero elsewhere. *)
Definition threshold (z : F) : F :=
  if fge (sigmoid_function z) c_half then f1 else f0.
End EstimatorStatements.


(** The three hyper-parameters of an estimator. *)
Definition hyperparameters {F} (self : LogisticRegression.t F)
  : pyval F * pyval F * pyval F :=
  (LogisticRegression.l2_penalty self, LogisticRegression.alpha self,
   LogisticRegression.max_iter self).

(** [wp c Q s]: running [c] from the state [s] ends with a result and a
    state that satisfy [Q]. *)
Definition wp {S A} (c : St S A) (Q : result A → S → Prop) (s : S) : Prop :=
  Q (c s).1 (c s).2.

(** ** The dataset with its names, and the k-mer descriptor *)

(** A Python [str], by its characters.  Characters are the 8-bit ones of
    [ascii], on which [lower] turns A-Z into a-z and changes nothing
    else. *)
Abbreviation str := (list ascii).

(** A string literal. *)
Definition literal (s : string) : str := String.list_ascii_of_string s.

(** [len(s)], [s.lower()], [''.join(parts)], and the items of a string
    when it is iterated: its characters as strings of length one. *)
Definition lower_char (c : ascii) : ascii :=
  let n := N_of_ascii c in
  if ((65 <=? n) && (n <=? 90))%N then ascii_of_N (n + 32) else c.

Definition lower (s : str) : str := lower_char <$> s.

Definition join (parts : list str) : str := concat parts.

Definition chars (s : str) : list str := (λ c, [c]) <$> s.

(** [s[start:stop]]: a negative bound counts from the end, and both
    bounds are cut to the length of the sequence. *)
Definition slice_bound (len : nat) (i : Z) : nat :=
  Z.to_nat (if decide (i < 0)%Z then Z.max 0 (i + Z.of_nat len)
            else Z.min i (Z.of_nat len)).

Definition slice {A} (s : list A) (start stop : Z) : list A :=
  let lo := slice_bound (length s) start in
  let hi := slice_bound (length s) stop in
  take (hi - lo) (drop lo s).

(** The exceptions of this part of the package: those of the estimator
    core, and two more. *)
Inductive error : Type :=
| Exn (e : exn)
| AssertionError (msg : string)
| IndexError.

Inductive outcome (A : Type) : Type :=
| Return (a : A)
| Fail (e : error).
Arguments Return {A} a.
Arguments Fail {A} e.

#[global] Instance outcome_ret : MRet outcome := λ A a, Return a.
#[global] Instance outcome_bind : MBind outcome := λ A B k r,
  match r with
  | Return a => k a
  | Fail e => Fail e
  end.

Definition of_result {A} (r : result A) : outcome A :=
  match r with
  | Ok a => Return a
  | Raise e => Fail (Exn e)
  end.

(** *** Dataset ([src/si/data/dataset.py]), all four attributes

    [E] is the type of the entries of [X] (numbers, or sequences before
    they are described by numbers) and [L] the type of the labels. *)
Module Data.
Record Dataset (E L : Type) : Type := mk {
  X : list (list E);
  y : option (list L);
  features : list str;
  label : option str
}.
Arguments mk {E L}.
Arguments X {E L}.
Arguments y {E L}.
Arguments features {E L}.
Arguments label {E L}.

(** [Dataset(X, y, features, label)]; an argument left out is [None]. *)
Definition init {E L} (X : option (list (list E))) (y : option (list L))
    (features : option (list str)) (label : option str)
  : outcome (Dataset E L) :=
  match X with
  | None => Fail (Exn ValueError)
  | Some X =>
      let features :=
        match features with
        | None =>
            (* [str(i) for i in range(X.shape[1])] *)
            (λ i : nat, literal (pretty i)) <$> range (Z.of_nat (ncols X))
        | Some features => features
        end in
      let label :=
        match y, label with
        | Some _, None => Some (literal "y")
        | _, _ => label
        end in
      Return (mk X y features label)
  end.

Definition get_shape {E L} (d : Dataset E L) : nat * nat :=
  (length (X d), ncols (X d)).

Definition has_label {E L} (d : Dataset E L) : bool :=
  match y d with None => false | Some _ => true end.
End Data.

(** What the estimator core reads of a dataset of numbers. *)
Definition core_of {F} (d : Data.Dataset F F) : Dataset F :=
  mkDataset (Data.X d) (Data.y d).

(** *** KMer ([src/si/feature_extraction/k_mer.py]) *)

Module KMer.

(** The attributes: the length [k], which is an int, the alphabet, and
    the k-mers, [None] until [fit] assigns them. *)
Record t : Type := mk {
  k : Z;
  alphabet : str;
  k_mers : option (list str)
}.

(** [KMer(k, alphabet)]. *)
Definition init (k : Z) (alphabet : str) : outcome t :=
  if decide (lower alphabet ∈ [literal "dna"; literal "protein"]) then
    Return (mk k
              (if decide (lower alphabet = literal "dna")
               then literal "ATCG"
               else literal "ACDEFGHIKLMNPQRSTVWY")
              None)
  else
    Fail (AssertionError
            "Choose a valid sequence type ('dna' or 'protein').").

(** [itertools.product(pool, repeat=n)]: the product of [n] copies of
    the pool; a negative [n] is refused. *)
Definition product_repeat {A} (pool : list A) (n : Z)
  : outcome (list (list A)) :=
  if decide (n < 0)%Z then Fail (Exn ValueError)
  else Return (product (replicate (Z.to_nat n) pool)).

(** [fit(self, dataset)], which does not read the dataset; it answers
    [self] with its new state. *)
Definition fit {E L} (dataset : Data.Dataset E L) (self : t) : outcome t :=
  tuples ← product_repeat (chars (alphabet self)) (k self);
  mret (mk (k self) (alphabet self) (Some (join <$> tuples))).

(** The loop of [_get_sequence_k_mer_composition] over the start
    positions: [counts[sequence[i:i + k]] += 1]. *)
Fixpoint count_windows (sequence : str) (k : Z) (indices : list nat)
    (counts : gmap str Z) : outcome (gmap str Z) :=
  match indices with
  | [] => mret counts
  | i :: indices' =>
      let k_mer := slice sequence (Z.of_nat i) (Z.of_nat i + k) in
      match counts !! k_mer with
      | Some c =>
          count_windows sequence k indices' (<[k_mer := (c + 1)%Z]> counts)
      | None => Fail (Exn KeyError)
      end
  end.

Section Methods.
Context {F : Type} `{Arith F}.

(** [_get_sequence_k_mer_composition(self, sequence)].  The dictionary
    [{k_mer: 0 for k_mer in self.k_mers}] is read by key only; the
    quotient of two ints is the float nearest to it, which is the
    quotient of the two floats as long as the ints are floats. *)
Definition get_sequence_k_mer_composition (self : t) (sequence : str)
  : outcome (list F) :=
  k_mers ← match k_mers self with
           | Some k_mers => Return k_mers
           | None => Fail (Exn TypeError)
           end;
  let counts : gmap str Z :=
    list_to_map ((λ k_mer, (k_mer, 0%Z)) <$> k_mers) in
  counts ← count_windows sequence (k self)
             (range (Z.of_nat (length sequence) - k self + 1)) counts;
  mapM (λ k_mer,
          match counts !! k_mer with
          | Some c => of_result (py_div (PInt c) (length sequence))
          | None => Fail (Exn KeyError)
          end) k_mers.

(** [dataset.X[:, 0]]. *)
Definition first_column {E} (X : list (list E)) : outcome (list E) :=
  if decide (ncols X = 0) then Fail IndexError
  else mapM (λ row, match row with
                    | x :: _ => Return x
                    | [] => Fail IndexError
                    end) X.

(** [transform(self, dataset)]. *)
Definition transform {L} (dataset : Data.Dataset str L) (self : t)
  : outcome (Data.Dataset F L) :=
  sequences ← first_column (Data.X dataset);
  sequences_k_mer_composition ←
    mapM (get_sequence_k_mer_composition self) sequences;
  Data.init (Some sequences_k_mer_composition) (Data.y dataset)
            (k_mers self) (Data.label dataset).

(** [fit_transform(self, dataset)]; it answers the transformed dataset
    and [self] in the state [fit] left it. *)
Definition fit_transform {L} (dataset : Data.Dataset str L) (self : t)
  : outcome (t * Data.Dataset F L) :=
  self ← fit dataset self;
  transformed ← transform dataset self;
  mret (self, transformed).
End Methods.
End KMer.

(** The pieces of length [k] of a sequence, one for each start position
    that leaves room for it, and the number of them that are a given
    k-mer. *)
Definition windows (k : nat) (sequence : str) : list str :=
  (λ i, take k (drop i sequence)) <$> seq 0 (S (length sequence) - k).

Definition occurrences (k_mer : str) (k : nat) (sequence : str) : nat :=
  length (filter (λ w, w = k_mer) (windows k sequence)).

(** The strings written in an alphabet. *)
Definition over (alphabet : str) (s : str) : Prop :=
  Forall (λ c, c ∈ alphabet) s.

(** The sum of the counts of a dictionary. *)
Definition total (counts : gmap str Z) : Z :=
  map_fold (λ _ c sum, (c + sum)%Z) 0%Z counts.

(** ** Inputs of the examples on sequences *)

Module SequenceExample.
Import B64.

(** [KMer(k=2, alphabet="dna")], as the constructor leaves it and as
    [fit] leaves it. *)
Definition descriptor : KMer.t := KMer.mk 2 (literal "ATCG") None.

Definition fitted : KMer.t :=
  KMer.mk 2 (literal "ATCG")
    (Some (join <$> cartesian (replicate 2 (chars (literal "ATCG"))))).

(** Two labelled sequences, in a dataset of one column. *)
Definition sequences : Data.Dataset str float :=
  Data.mk [[literal "ACGTAC"]; [literal "TTGACA"]]
          (Some [Example.num 1; Example.num 0])
          [literal "sequence"] None.
End SequenceExample.

(** * Properties *)

(** ** Reasoning about computations *)

Lemma wp_ret {S A} (a : A) (Q : result A → S → Prop) s :
  wp (ret a) Q s ↔ Q (Ok a) s.
Proof. done. Qed.

Lemma wp_raise {S A} e (Q : result A → S → Prop) s :
  wp (raise e) Q s ↔ Q (Raise e) s.
Proof. done. Qed.

Lemma wp_lift {S A} (r : result A) (Q : result A → S → Prop) s :
  wp (lift r) Q s ↔ Q r s.
Proof. done. Qed.

Lemma wp_get {S} (Q : result S → S → Prop) s :
  wp get Q s ↔ Q (Ok s) s.
Proof. done. Qed.

Lemma wp_modify {S} (f : S → S) (Q : result unit → S → Prop) s :
  wp (modify f) Q s ↔ Q (Ok tt) (f s).
Proof. done. Qed.

Lemma wp_bind {S A B} (c : St S A) (k : A → St S B) Q s :
  wp (bind c k) Q s ↔
  wp c (λ r s', match r with
                | Ok a => wp (k a) Q s'
                | Raise e => Q (Raise e) s'
                end) s.
Proof. unfold wp, bind. by destruct (c s) as [[a|e] s']. Qed.

Lemma wp_mono {S A} (c : St S A) (Q Q' : result A → S → Prop) s :
  (∀ r s', Q r s' → Q' r s') → wp c Q s → wp c Q' s.
Proof. unfold wp. auto. Qed.

Lemma wp_eq {S A} (c : St S A) s (x : result A * S) :
  wp c (λ r0 s0, (r0, s0) = x) s → c s = x.
Proof. unfold wp. by destruct (c s). Qed.

Lemma wp_run {S A} (c : St S A) (Q : result A → S → Prop) s r s' :
  c s = (r, s') → wp c Q s → Q r s'.
Proof. unfold wp. by intros ->. Qed.

(** A lifted result either raises, which ends the computation in the
    state it is in, or gives its value. *)
Ltac wp_lift_case :=
  apply wp_lift;
  match goal with
  | |- match ?r with Ok _ => _ | Raise _ => _ end => destruct r; [|done]
  end.

(** A loop with early return keeps an invariant [I] as long as it
    continues, and establishes [Q] when it returns, raises or ends. *)
Lemma wp_for_in {S A R} (I : S → Prop) (xs : list A)
    (body : A → St S (option R)) (Q : result (option R) → S → Prop) s :
  I s →
  (∀ x s, x ∈ xs → I s →
     wp (body x) (λ r s', match r with
                          | Ok None => I s'
                          | _ => Q r s'
                          end) s) →
  (∀ s, I s → Q (Ok None) s) →
  wp (for_in xs body) Q s.
Proof.
  intros HI Hbody Hend. revert s HI.
  induction xs as [|x xs IH]; intros s HI; simpl.
  - by apply Hend.
  - apply wp_bind. eapply wp_mono; [|apply (Hbody x); [left|done]].
    intros [[v|]|e] s'; simpl; try done.
    apply IH. intros; apply Hbody; [by right|done].
Qed.

Lemma for_each_app {S A} (xs zs : list A) (body : A → St S unit) s :
  for_each (xs ++ zs) body s =
  bind (for_each xs body) (λ _, for_each zs body) s.
Proof.
  revert s. induction xs as [|x xs IH]; intros s; simpl; [done|].
  unfold bind in *. destruct (body x s) as [[[]|e] s']; [|done].
  apply IH.
Qed.

(** A call that raised contradicts the request that nothing raises. *)
Ltac raised E :=
  let T := fresh "T" in
  let X := fresh "X" in
  intros T;
  match type of E with
  | ?c = _ =>
      first
        [ assert (X : is_ok (c).1) by (first
            [ apply (proj1 T) | apply (proj1 (proj2 T))
            | apply (proj1 (proj2 (proj2 T)))
            | apply (proj1 (proj2 (proj2 (proj2 T)))) ])
        | assert (X : is_ok c) by apply (proj2 (proj2 (proj2 (proj2 T)))) ];
      rewrite E in X; exact X
  end.

(** ** The heap and the two lifts *)

Section WorldFacts.
Context {F M R : Type} `{Estimator F M} `{Sampling F R}.
Implicit Types (w : World F M R) (h : list (dict F)) (d : dict F).

Lemma wp_on_rng {A} (c : St R A) (Q : result A → World F M R → Prop) w :
  wp (on_rng c) Q w ↔
  Q (c (rng w)).1 (mkWorld (model w) (c (rng w)).2 (heap w)).
Proof. unfold wp, on_rng. by destruct (c (rng w)). Qed.

Lemma wp_on_model {A} (c : St M A) (Q : result A → World F M R → Prop) w :
  wp (on_model c) Q w ↔
  Q (c (model w)).1 (mkWorld (c (model w)).2 (rng w) (heap w)).
Proof. unfold wp, on_model. by destruct (c (model w)). Qed.

(** Appending to a list held by the newest dictionary. *)
Lemma list_append_last h d k xs v w :
  heap w = h ++ [d] →
  dict_get k d = Some (PList xs) →
  list_append (PRef (length h)) k v w =
  (Ok tt, mkWorld (model w) (rng w)
            (h ++ [dict_set k (PList (xs ++ [v])) d])).
Proof.
  intros Hh Hk. unfold list_append.
  rewrite Hh, list_lookup_middle by done. rewrite Hk.
  rewrite insert_app_r_alt by done. by rewrite Nat.sub_diag.
Qed.

(** Assigning an item of the newest dictionary. *)
Lemma setitem_last h d k v w :
  heap w = h ++ [d] →
  setitem (PRef (length h)) k v w =
  (Ok tt, mkWorld (model w) (rng w) (h ++ [dict_set k v d])).
Proof.
  intros Hh. unfold setitem.
  rewrite Hh, list_lookup_middle by done.
  rewrite insert_app_r_alt by done. by rewrite Nat.sub_diag.
Qed.

Lemma wp_new_dict d (Q : result (pyval F) → World F M R → Prop) w :
  wp (new_dict d) Q w ↔
  Q (Ok (PRef (length (heap w)))) (mkWorld (model w) (rng w) (heap w ++ [d])).
Proof. done. Qed.

Lemma wp_list_append_last h d k xs v (Q : result unit → World F M R → Prop) w :
  heap w = h ++ [d] →
  dict_get k d = Some (PList xs) →
  wp (list_append (PRef (length h)) k v) Q w ↔
  Q (Ok tt) (mkWorld (model w) (rng w)
               (h ++ [dict_set k (PList (xs ++ [v])) d])).
Proof.
  intros Hh Hk. unfold wp. by rewrite (list_append_last h d k xs v w).
Qed.

Lemma wp_setitem_last h d k v (Q : result unit → World F M R → Prop) w :
  heap w = h ++ [d] →
  wp (setitem (PRef (length h)) k v) Q w ↔
  Q (Ok tt) (mkWorld (model w) (rng w) (h ++ [dict_set k v d])).
Proof. intros Hh. unfold wp. by rewrite (setitem_last h d k v w). Qed.

(** ** cross_validate *)

(** C3 (where the code departs from the claim).  One run of
    [cross_validate] with a scoring function, traced call by call: the
    value appended to "train" is [scoring] of the labels of the train
    partition and of [model.score(train)], as the claim says; the value
    appended to "test" is [scoring] of the labels of the test partition
    and of a second [model.score(train)], not of the model's score on the
    test partition. *)
Theorem cross_validate_scoring_run dataset scoring cv test_size w
    seed g1 train test g2 m1 s1 m2 v1 s2 m3 v2 :
  (0 < cv)%Z →
  randint 0 1000 (rng w) = (Ok seed, g1) →
  train_test_split dataset test_size seed g1 = (Ok (train, test), g2) →
  model_fit train (model w) = (Ok tt, m1) →
  model_score train m1 = (Ok s1, m2) →
  scoring (y train) s1 = Ok v1 →
  model_score train m2 = (Ok s2, m3) →
  scoring (y test) s2 = Ok v2 →
  cross_validate dataset (Some scoring) cv test_size w =
  (Ok (PRef (length (heap w))),
   mkWorld m3 g2
     (heap w ++ [scores_dict [PInt seed] [PFloat v1] [PFloat v2]])).
Proof.
  intros Hcv Hseed Hsplit Hfit Hs1 Hv1 Hs2 Hv2.
  apply wp_eq. unfold cross_validate, range.
  destruct (Z.to_nat cv) as [|n] eqn:Hn; [lia|].
  rewrite <- cons_seq. apply wp_bind, wp_new_dict.
  apply wp_bind. simpl for_in. do 2 apply wp_bind.
  apply wp_on_rng; simpl; rewrite Hseed; simpl.
  apply wp_bind. eapply wp_list_append_last; [done..|]. simpl.
  apply wp_bind, wp_on_rng; simpl; rewrite Hsplit; simpl.
  apply wp_bind, wp_on_model; simpl; rewrite Hfit; simpl.
  do 2 apply wp_bind. apply wp_on_model; simpl; rewrite Hs1; simpl.
  apply wp_bind, wp_lift; rewrite Hv1.
  apply wp_bind. eapply wp_list_append_last; [done..|]. simpl.
  apply wp_bind, wp_on_model; simpl; rewrite Hs2; simpl.
  apply wp_bind, wp_lift; rewrite Hv2.
  eapply wp_list_append_last; [done..|]. simpl.
  done.
Qed.

(** One run of [cross_validate] without a scoring function, traced call
    by call: one seed is drawn and stored, the dataset is split with
    it, the model is fitted on the train partition, and the model's own
    scores of the train and of the test partition are stored under
    "train" and "test".  The returned dictionary is the one created at
    the start, and the model is left as the last [score] left it. *)
Lemma cross_validate_default_run dataset cv test_size w
    seed g1 train test g2 m1 s1 m2 s2 m3 :
  (0 < cv)%Z →
  randint 0 1000 (rng w) = (Ok seed, g1) →
  train_test_split dataset test_size seed g1 = (Ok (train, test), g2) →
  model_fit train (model w) = (Ok tt, m1) →
  model_score train m1 = (Ok s1, m2) →
  model_score test m2 = (Ok s2, m3) →
  cross_validate dataset None cv test_size w =
  (Ok (PRef (length (heap w))),
   mkWorld m3 g2
     (heap w ++ [scores_dict [PInt seed] [PFloat s1] [PFloat s2]])).
Proof.
  intros Hcv Hseed Hsplit Hfit Hs1 Hs2.
  apply wp_eq. unfold cross_validate, range.
  destruct (Z.to_nat cv) as [|n] eqn:Hn; [lia|].
  rewrite <- cons_seq. apply wp_bind, wp_new_dict.
  apply wp_bind. simpl for_in. do 2 apply wp_bind.
  apply wp_on_rng; simpl; rewrite Hseed; simpl.
  apply wp_bind. eapply wp_list_append_last; [done..|]. simpl.
  apply wp_bind, wp_on_rng; simpl; rewrite Hsplit; simpl.
  apply wp_bind, wp_on_model; simpl; rewrite Hfit; simpl.
  do 2 apply wp_bind. apply wp_on_model; simpl; rewrite Hs1; simpl.
  apply wp_bind. eapply wp_list_append_last; [done..|]. simpl.
  apply wp_bind, wp_on_model; simpl; rewrite Hs2; simpl.
  eapply wp_list_append_last; [done..|]. simpl.
  done.
Qed.

(** What every run of [cross_validate] does to the world, whatever the
    model and the generator answer: it creates one dictionary, the model
    keeps every property [P] that [fit] and [score] keep, and when it
    returns, it returns after the first fold, or [None] when there is no
    fold to run. *)
Lemma cross_validate_wp (P : M → Prop) dataset scoring cv test_size w :
  (∀ (t : Dataset F) m, P m → P (model_fit t m).2) →
  (∀ (t : Dataset F) m, P m → P (model_score t m).2) →
  P (model w) →
  wp (cross_validate dataset scoring cv test_size)
     (cross_validate_post P scoring cv w) w.
Proof.
  intros Hfit Hscore HP.
  unfold cross_validate, range, cross_validate_post.
  apply wp_bind, wp_new_dict. apply wp_bind.
  destruct (Z.to_nat cv) as [|n] eqn:Hn.
  { simpl. apply wp_ret, wp_ret. simpl. split; [done|]. right.
    split; [lia|done]. }
  rewrite <- cons_seq. simpl for_in. do 2 apply wp_bind.
  apply wp_on_rng; simpl.
  destruct (randint 0 1000 (rng w)) as [[seed|e] g1] eqn:E1; simpl;
    [|split; [done|raised E1]].
  apply wp_bind. eapply wp_list_append_last; [done..|]. simpl.
  apply wp_bind, wp_on_rng; simpl.
  destruct (train_test_split dataset test_size seed g1)
    as [[[train test]|e] g2] eqn:E2; simpl;
    [|split; [done|raised E2]].
  apply wp_bind, wp_on_model; simpl.
  pose proof (Hfit train _ HP) as HP1.
  destruct (model_fit train (model w)) as [[[]|e] m1] eqn:E3; simpl in *;
    [|split; [done|raised E3]].
  destruct scoring as [scoring|].
  - do 2 apply wp_bind. apply wp_on_model; simpl.
    pose proof (Hscore train _ HP1) as HP2.
    destruct (model_score train m1) as [[s1|e] m2] eqn:E4; simpl in *;
      [|split; [done|raised E4]].
    apply wp_bind, wp_lift.
    destruct (scoring (y train) s1) as [v1|e] eqn:E5; simpl;
      [|split; [done|raised E5]].
    apply wp_bind. eapply wp_list_append_last; [done..|]. simpl.
    apply wp_bind, wp_on_model; simpl.
    pose proof (Hscore train _ HP2) as HP3.
    destruct (model_score train m2) as [[s2|e] m3] eqn:E6; simpl in *;
      [|split; [done|raised E6]].
    apply wp_bind, wp_lift.
    destruct (scoring (y test) s2) as [v2|e] eqn:E7; simpl;
      [|split; [done|raised E7]].
    eapply wp_list_append_last; [done..|]. simpl.
    apply wp_ret, wp_ret; simpl. split; [done|]. left.
    split; [lia|]. split; [done|]. by eexists _, _, _.
  - do 2 apply wp_bind. apply wp_on_model; simpl.
    pose proof (Hscore train _ HP1) as HP2.
    destruct (model_score train m1) as [[s1|e] m2] eqn:E4; simpl in *;
      [|split; [done|raised E4]].
    apply wp_bind. eapply wp_list_append_last; [done..|]. simpl.
    apply wp_bind, wp_on_model; simpl.
    pose proof (Hscore test _ HP2) as HP3.
    destruct (model_score test m2) as [[s2|e] m3] eqn:E5; simpl in *;
      [|split; [done|raised E5]].
    eapply wp_list_append_last; [done..|]. simpl.
    apply wp_ret, wp_ret; simpl. split; [done|]. left.
    split; [lia|]. split; [done|]. by eexists _, _, _.
Qed.
End WorldFacts.

(** ** itertools.product and the Cartesian order *)

Section Product.
Context {A : Type}.
Implicit Types (pool : list A) (pools : list (list A)).

Lemma bind_unit_fmap {B C} (f : B → C) (l : list B) :
  l ≫= (λ b, [f b]) = f <$> l.
Proof. induction l as [|b l IH]; [done|]. by rewrite bind_cons, IH. Qed.

Lemma bind_snoc_cons (x : list A) (y : A) (cs : list (list A)) :
  cs ≫= (λ c, [(x ++ [y]) ++ c]) =
  (cs ≫= λ c, [y :: c]) ≫= λ c, [x ++ c].
Proof.
  induction cs as [|c cs IH]; [done|].
  rewrite !bind_cons, IH. simpl. by rewrite <- app_assoc.
Qed.

Lemma product_step_cartesian pools (acc : list (list A)) :
  foldl (λ result pool, x ← result; y ← pool; [x ++ [y]]) acc pools =
  x ← acc; c ← cartesian pools; [x ++ c].
Proof.
  revert acc. induction pools as [|pool rest IH]; intros acc; simpl.
  - induction acc as [|x acc IHacc]; [done|].
    rewrite bind_cons; simpl. by rewrite app_nil_r, <- IHacc.
  - rewrite IH. clear IH.
    induction acc as [|x acc IHacc]; [done|].
    rewrite !bind_cons, bind_app, IHacc. f_equal. clear IHacc.
    induction pool as [|y pool IHpool]; [done|].
    rewrite !bind_cons, !bind_app, IHpool. f_equal.
    simpl. rewrite app_nil_r. apply bind_snoc_cons.
Qed.

(** [itertools.product] enumerates the combinations in the Cartesian
    order of the pools. *)
Lemma product_cartesian pools : product pools = cartesian pools.
Proof.
  unfold product. rewrite product_step_cartesian, bind_singleton. simpl.
  by rewrite bind_unit_fmap, list_fmap_id.
Qed.

Lemma length_cartesian pools : length (cartesian pools) = grid_size pools.
Proof.
  unfold grid_size. induction pools as [|pool rest IH]; [done|]. simpl.
  rewrite <- IH. clear IH.
  induction pool as [|x pool IHpool]; [done|].
  rewrite bind_cons, length_app, IHpool. simpl. f_equal.
  by rewrite bind_unit_fmap, length_fmap.
Qed.

Lemma elem_of_cartesian pools (c : list A) :
  c ∈ cartesian pools ↔ Forall2 (λ x pool, x ∈ pool) c pools.
Proof.
  revert c. induction pools as [|pool rest IH]; intros c; simpl.
  - rewrite list_elem_of_singleton. split; [by intros ->|].
    by inversion 1.
  - rewrite list_elem_of_bind. split.
    + intros (x & Hc & Hx). apply list_elem_of_bind in Hc as (c' & Hc & Hc').
      apply list_elem_of_singleton in Hc as ->.
      constructor; [done|]. by apply IH.
    + inversion 1 as [|x ? c' ? Hx Hc']; subst.
      exists x. split; [|done]. apply list_elem_of_bind.
      exists c'. split; [by apply list_elem_of_singleton|by apply IH].
Qed.


(** The last combination takes the last value of every pool. *)
Lemma last_cartesian pools (c : list A) :
  Forall2 (λ pool x, last pool = Some x) pools c →
  last (cartesian pools) = Some c.
Proof.
  induction 1 as [|pool x rest c Hx _ IH]; [done|]. simpl.
  apply last_Some in Hx as [pre ->]. apply last_Some in IH as [cs ->].
  rewrite bind_app, bind_singleton.
  rewrite bind_app, bind_singleton.
  rewrite !app_assoc. apply last_snoc.
Qed.

(** Pools without repeated values give combinations without repetition. *)
Lemma NoDup_cartesian pools :
  Forall NoDup pools → NoDup (cartesian pools).
Proof.
  induction 1 as [|pool rest Hpool _ IH]; simpl.
  - apply NoDup_singleton.
  - apply NoDup_bind; [|intros x _|done].
    + intros x1 x2 c _ _ H1 H2.
      apply list_elem_of_bind in H1 as (c1 & H1 & _).
      apply list_elem_of_bind in H2 as (c2 & H2 & _).
      apply list_elem_of_singleton in H1, H2. congruence.
    + apply NoDup_bind; [|intros; apply NoDup_singleton|done].
      intros c1 c2 c _ _ H1 H2.
      apply list_elem_of_singleton in H1, H2. congruence.
Qed.
End Product.

(** ** Dictionaries *)

Section DictFacts.
Context {F : Type}.
Implicit Types (d : dict F) (k : string) (v : pyval F).

Lemma dict_get_set_eq k v d : dict_get k (dict_set k v d) = Some v.
Proof.
  unfold dict_get. induction d as [|[k' v'] d IH]; simpl.
  - by rewrite bool_decide_eq_true_2.
  - destruct (decide (k' = k)) as [->|Hne]; simpl.
    + by rewrite bool_decide_eq_true_2.
    + by rewrite bool_decide_eq_false_2.
Qed.

Lemma dict_get_set_ne k k' v d :
  k ≠ k' → dict_get k' (dict_set k v d) = dict_get k' d.
Proof.
  intros Hne. unfold dict_get. induction d as [|[k0 v0] d IH]; simpl.
  - by rewrite bool_decide_eq_false_2.
  - destruct (decide (k0 = k)) as [->|Hne0]; simpl.
    + by rewrite !bool_decide_eq_false_2.
    + destruct (bool_decide (k0 = k')); [done|apply IH].
Qed.



End DictFacts.

(** ** grid_search *)

Section GridSearchFacts.
Context {F M R : Type} `{Estimator F M} `{Sampling F R}.
Implicit Types (w : World F M R) (h : list (dict F)).
Implicit Types (keys : list string) (combination : list (pyval F)).

(** The validation loop leaves the world as it is; it passes when every
    key is an attribute, and otherwise raises for the first key that is
    not. *)
Lemma validation_run (keys : list string) w :
  for_each keys (λ parameter,
    w <- get ;;
    if hasattr (model w) parameter then ret tt
    else raise (AttributeError
                  ("Model " +:+ model_str (model w) +:+
                   " does not have parameter " +:+ parameter +:+ ".")))%py w
  = match list_find (λ k, ¬ hasattr (model w) k) keys with
    | None => (Ok tt, w)
    | Some (_, parameter) =>
        (Raise (AttributeError
                  ("Model " +:+ model_str (model w) +:+
                   " does not have parameter " +:+ parameter +:+ ".")), w)
    end.
Proof.
  induction keys as [|k keys IH]; [done|].
  apply wp_eq. simpl for_each. apply wp_bind, wp_bind, wp_get.
  cbn [list_find].
  destruct (hasattr (model w) k) eqn:Hk.
  - apply wp_ret. unfold wp. rewrite IH.
    rewrite decide_False by (by intros []).
    by destruct (list_find _ keys) as [[i k']|].
  - apply wp_raise. by simpl.
Qed.

(** The loop that sets the parameters of one combination. *)
Lemma set_parameters_run h d (kvs : list (string * pyval F)) w :
  heap w = h ++ [d] →
  for_each kvs (λ pv,
    let parameter := fst pv in
    let value := snd pv in
    on_model (modify (setattr parameter value)) ;;
    setitem (PRef (length h)) parameter value)%py w
  = (Ok tt, mkWorld (assign_all kvs (model w)) (rng w)
              (h ++ [foldl (λ d kv, dict_set kv.1 kv.2 d) d kvs])).
Proof.
  revert d w. induction kvs as [|[k v] kvs IH]; intros d w Hh.
  - simpl. unfold ret. rewrite <- Hh. by destruct w.
  - simpl for_each. apply wp_eq. apply wp_bind, wp_bind.
    apply wp_on_model. simpl.
    eapply wp_setitem_last; [done|]. simpl.
    unfold wp. by rewrite (IH (dict_set k v d)).
Qed.

Lemma grid_point_wp (P : M → Prop) dataset keys scoring cv test_size
    combination scores w :
  (∀ (t : Dataset F) m, P m → P (model_fit t m).2) →
  (∀ (t : Dataset F) m, P m → P (model_score t m).2) →
  P (assign_all (zip keys combination) (model w)) →
  wp (grid_point dataset keys scoring cv test_size combination scores)
     (λ r w',
        P (model w') ∧
        match r with
        | Ok scores' =>
            (0 < cv)%Z ∧
            scores' = scores ++ [PRef (S (length (heap w)))] ∧
            ∃ a b c,
              heap w' =
              heap w ++
                [assignment (zip keys combination);
                 dict_set "parameters" (PRef (length (heap w)))
                   (scores_dict [a] [b] [c])]
        | Raise _ => never_raises scoring → (cv ≤ 0)%Z
        end) w.
Proof.
  intros Hfit Hscore HP. unfold grid_point.
  apply wp_bind, wp_new_dict. apply wp_bind.
  unfold wp at 1. erewrite set_parameters_run by done. simpl.
  apply wp_bind.
  eapply wp_mono; [|by apply (cross_validate_wp P)].
  intros [v|e] w1 [HP1 Hr]; [|done].
  destruct Hr as [(Hcv & -> & a & b & c & Hh)|(Hcv & -> & Hh)];
    cbn [heap model rng] in *.
  - apply wp_bind. eapply wp_setitem_last; [exact Hh|].
    apply wp_ret. cbn [heap model rng]. split; [done|]. split; [done|].
    rewrite length_app, Nat.add_1_r. split; [done|].
    exists a, b, c. by rewrite <- app_assoc.
  - apply wp_bind. unfold wp; simpl. done.
Qed.
(** The loop over the combinations, for a family [P] of properties of
    the model, one for each combination: [P c] holds once the parameters
    of [c] are set, and [fit] and [score] keep it. *)
Lemma grid_loop_wp (P : list (pyval F) → M → Prop) dataset keys scoring cv
    test_size (combos : list (list (pyval F))) scores w :
  (∀ c (t : Dataset F) m, P c m → P c (model_fit t m).2) →
  (∀ c (t : Dataset F) m, P c m → P c (model_score t m).2) →
  (∀ c m, c ∈ combos → P c (assign_all (zip keys c) m)) →
  wp (for_acc combos scores
        (grid_point dataset keys scoring cv test_size))
     (λ r w',
        match r with
        | Ok records =>
            records =
              scores ++ grid_records (length (heap w)) (length combos) ∧
            (∃ ext, heap w' = heap w ++ ext ∧
                    grid_heap keys (length (heap w)) combos ext) ∧
            (∀ c, last combos = Some c → P c (model w'))
        | Raise _ => never_raises scoring → (cv ≤ 0)%Z
        end) w.
Proof.
  intros Hfit Hscore. revert scores w.
  induction combos as [|c0 combos IH]; intros scores w Hset.
  - simpl. apply wp_ret. split; [by rewrite app_nil_r|].
    split; [|done]. exists []. split; [by rewrite app_nil_r|constructor].
  - simpl for_acc. apply wp_bind.
    eapply wp_mono;
      [|apply (grid_point_wp (P c0)); [apply Hfit|apply Hscore|]];
      [|apply Hset; by left].
    intros [scores'|e] w1 [HP1 Hr]; [|done].
    destruct Hr as (Hcv & -> & a & b & c & Hh).
    destruct combos as [|c1 combos].
    + simpl for_acc. apply wp_ret. simpl. split; [done|].
      split; [|by intros ? [= <-]].
      eexists. split; [exact Hh|]. repeat constructor.
    + eapply wp_mono; [|apply IH; intros; apply Hset; by right].
      intros [records|e] w2; [|done].
      intros (-> & (ext & Hext & Hgh) & Hlast).
      rewrite Hh in *. rewrite length_app in *. simpl length in *.
      rewrite Nat.add_comm in *. simpl plus in *.
      split; [by rewrite <- app_assoc|].
      split; [|done].
      eexists. rewrite Hext, <- app_assoc. split; [done|].
      simpl. by constructor.
Qed.

(** [grid_search] as a whole. *)
Lemma grid_search_wp (P : list (pyval F) → M → Prop) dataset
    (parameter_grid : list (string * list (pyval F))) scoring cv test_size w :
  let keys := parameter_grid.*1 in
  let values := parameter_grid.*2 in
  (∀ c (t : Dataset F) m, P c m → P c (model_fit t m).2) →
  (∀ c (t : Dataset F) m, P c m → P c (model_score t m).2) →
  (∀ c m, c ∈ cartesian values → P c (assign_all (zip keys c) m)) →
  wp (grid_search dataset parameter_grid scoring cv test_size)
     (λ r w',
        match r with
        | Ok records =>
            records =
              grid_records (length (heap w)) (grid_size values) ∧
            (∃ ext, heap w' = heap w ++ ext ∧
                    grid_heap keys (length (heap w)) (cartesian values) ext) ∧
            (∀ c, last (cartesian values) = Some c → P c (model w'))
        | Raise _ =>
            Forall (λ k, hasattr (model w) k) keys →
            never_raises scoring → (cv ≤ 0)%Z
        end) w.
Proof.
  intros keys values Hfit Hscore Hset. unfold grid_search.
  apply wp_bind. unfold wp at 1. rewrite validation_run.
  destruct (list_find _ _) as [[i k]|] eqn:Hfind; simpl.
  - apply list_find_Some in Hfind as (Hk & Hno & _).
    intros Hall. exfalso. apply Hno.
    rewrite Forall_lookup in Hall. by apply (Hall i).
  - rewrite product_cartesian.
    eapply wp_mono; [|by apply (grid_loop_wp P)].
    intros [records|e] w'; [|auto].
    simpl. by rewrite length_cartesian.
Qed.





(** C6. When a key of the parameter grid is not an attribute of the
    model, [grid_search] raises [AttributeError] with a message that names
    the model and the first such key, and the world is the one it started
    from: no attribute was assigned, no random number drawn, no
    dictionary created, no fold run, and no list is returned. *)
Theorem grid_search_unknown_parameter dataset
    (parameter_grid : list (string * list (pyval F)))
    scoring cv test_size w :
  (∃ k, k ∈ parameter_grid.*1 ∧ ¬ hasattr (model w) k) →
  ∃ parameter before after,
    parameter_grid.*1 = before ++ parameter :: after ∧
    Forall (λ k, hasattr (model w) k) before ∧
    ¬ hasattr (model w) parameter ∧
    grid_search dataset parameter_grid scoring cv test_size w =
    (Raise (AttributeError
              ("Model " +:+ model_str (model w) +:+
               " does not have parameter " +:+ parameter +:+ ".")),
     w).
Proof.
  intros (k & Hk & Hno).
  destruct (list_find_elem_of (λ k, ¬ hasattr (model w) k)
              (parameter_grid.*1) k Hk Hno) as [[i parameter] Hfind].
  pose proof Hfind as (Hi & Hp & Hbefore)%list_find_Some.
  exists parameter, (take i parameter_grid.*1),
         (drop (S i) parameter_grid.*1).
  split; [by rewrite take_drop_middle|].
  split; [|split; [done|]].
  - apply Forall_lookup. intros j x Hj.
    apply lookup_take_Some in Hj as [Hj Hlt].
    specialize (Hbefore j x Hj Hlt).
    destruct (hasattr (model w) x); [done|]. destruct Hbefore. by intros [].
  - unfold grid_search, bind. by rewrite validation_run, Hfind.
Qed.
(** Attributes after the [setattr] calls of one combination. *)
Lemma assign_all_other (kvs : list (string * pyval F)) (m : M) k :
  k ∉ kvs.*1 →
  (∀ k' v m, k' ∈ kvs.*1 → k ≠ k' →
     getattr (setattr k' v m) k = getattr m k) →
  getattr (assign_all kvs m) k = getattr m k.
Proof.
  revert m. induction kvs as [|[k0 v0] kvs IH]; intros m Hk Hne; [done|].
  simpl in *. apply not_elem_of_cons in Hk as [Hk0 Hk].
  unfold assign_all in *. simpl. rewrite IH; [|done|].
  - apply Hne; [by left|done].
  - intros k' v m' Hk'. apply Hne. by right.
Qed.

Lemma assign_all_getattr (kvs : list (string * pyval F)) (m : M) k v :
  NoDup kvs.*1 →
  (∀ k v m, k ∈ kvs.*1 → getattr (setattr k v m) k = Some v) →
  (∀ k k' v m, k ∈ kvs.*1 → k' ∈ kvs.*1 → k ≠ k' →
     getattr (setattr k' v m) k = getattr m k) →
  (k, v) ∈ kvs →
  getattr (assign_all kvs m) k = Some v.
Proof.
  revert m. induction kvs as [|[k0 v0] kvs IH]; intros m Hnd Heq Hne Hin.
  { by inversion Hin. }
  simpl in *. apply NoDup_cons in Hnd as [Hk0 Hnd].
  apply elem_of_cons in Hin as [[= -> ->]|Hin].
  - unfold assign_all. simpl. fold (assign_all kvs (setattr k0 v0 m)).
    rewrite assign_all_other; [|done|].
    + apply Heq. by left.
    + intros k' v m' Hk' Hkk'. apply Hne; [by left|by right|done].
  - unfold assign_all. simpl. fold (assign_all kvs (setattr k0 v0 m)).
    apply IH; [done| | |done].
    + intros k1 v1 m1 Hk1. apply Heq. by right.
    + intros k1 k2 v1 m1 Hk1 Hk2. apply Hne; by right.
Qed.

(** C10. For a grid with distinct keys and at least one value for every
    key, on a model whose attributes named by the grid are read back as
    assigned and are not touched by [fit] and [score]: after
    [grid_search] returns, every such attribute of the model instance
    holds the last value of its list, that is the value of the last
    combination in Cartesian-product order.  Nothing restores or copies
    the configuration. *)
Theorem grid_search_leaves_last_combination dataset
    (parameter_grid : list (string * list (pyval F)))
    scoring cv test_size w records w' :
  let keys := parameter_grid.*1 in
  NoDup keys →
  Forall (λ kv, kv.2 ≠ []) parameter_grid →
  (∀ k v (m : M), k ∈ keys → getattr (setattr k v m) k = Some v) →
  (∀ k k' v (m : M), k ∈ keys → k' ∈ keys → k ≠ k' →
     getattr (setattr k' v m) k = getattr m k) →
  (∀ k (t : Dataset F) (m : M), k ∈ keys →
     getattr (model_fit t m).2 k = getattr m k) →
  (∀ k (t : Dataset F) (m : M), k ∈ keys →
     getattr (model_score t m).2 k = getattr m k) →
  grid_search dataset parameter_grid scoring cv test_size w
    = (Ok records, w') →
  (∃ c, last (cartesian parameter_grid.*2) = Some c ∧
        Forall2 (λ kv v, last kv.2 = Some v) parameter_grid c) ∧
  Forall (λ kv, getattr (model w') kv.1 = last kv.2) parameter_grid.
Proof.
  intros keys. subst keys. intros Hnd Hne Hgs Hgo Hfit Hscore Hrun.
  set (P := λ (c : list (pyval F)) (m : M),
         length c = length parameter_grid.*1 →
         ∀ k v, (k, v) ∈ zip parameter_grid.*1 c → getattr m k = Some v).
  assert (Hkeys : ∀ (c : list (pyval F)) k v, (k, v) ∈ zip parameter_grid.*1 c → k ∈ parameter_grid.*1).
  { intros c k v Hin. apply (elem_of_zip_l _ _ _ _ Hin). }
  pose proof (grid_search_wp P dataset parameter_grid scoring cv test_size w)
    as Hwp.
  apply (wp_run _ _ _ _ _ Hrun) in Hwp.
  - destruct Hwp as (_ & _ & Hlast).
    assert (∃ c, Forall2 (λ kv v, last kv.2 = Some v) parameter_grid c)
      as [c Hc].
    { clear -Hne. induction Hne as [|[k vs] grid Hvs _ [c IH]].
      - by exists [].
      - destruct (last vs) as [v|] eqn:Hv.
        + exists (v :: c). by constructor.
        + apply last_None in Hv. done. }
    assert (last (cartesian parameter_grid.*2) = Some c) as Hc'.
    { apply last_cartesian. clear -Hc.
      induction Hc; simpl; by constructor. }
    split; [by exists c|].
    specialize (Hlast c Hc').
    assert (length c = length parameter_grid.*1) as Hlen.
    { rewrite length_fmap. symmetry.
      by apply Forall2_length in Hc. }
    specialize (Hlast Hlen).
    apply Forall_lookup. intros i [k vs] Hi.
    destruct (Forall2_lookup_l _ _ _ _ _ Hc Hi) as (v & Hv & Hvs).
    simpl in *. rewrite Hvs. apply Hlast.
    apply elem_of_lookup_zip_with. exists i, k, v.
    split; [done|]. split; [|done].
    by rewrite list_lookup_fmap, Hi.
  - intros c t m HP Hlen k v Hin. rewrite Hfit by eauto. by apply HP.
  - intros c t m HP Hlen k v Hin. rewrite Hscore by eauto. by apply HP.
  - intros c m Hc Hlen k v Hin.
    apply assign_all_getattr; [| | |done].
    + by rewrite fst_zip by lia.
    + intros k1 v1 m1 Hk1. rewrite fst_zip in Hk1 by lia. by apply Hgs.
    + intros k1 k2 v1 m1 Hk1 Hk2. rewrite fst_zip in Hk1, Hk2 by lia.
      by apply Hgo.
Qed.
End GridSearchFacts.

(** ** What cross_validate returns *)

Section CrossValidateFolds.
Context {F M R : Type} `{Estimator F M} `{Sampling F R}.

(** C1 (where the code departs from the claim).  Whatever the number of
    folds [cv >= 1], when [cross_validate] returns, it returns the
    dictionary it created, and the lists under "seeds", "train" and
    "test" have length one each, not [cv]: the [return] closes the first
    fold. *)
Theorem cross_validate_single_fold (dataset : Dataset F) scoring cv test_size
    (w : World F M R) v w' :
  (1 ≤ cv)%Z →
  cross_validate dataset scoring cv test_size w = (Ok v, w') →
  ∃ d, v = PRef (length (heap w)) ∧
       heap w' !! length (heap w) = Some d ∧
       entry_length "seeds" d = Some 1 ∧
       entry_length "train" d = Some 1 ∧
       entry_length "test" d = Some 1.
Proof.
  intros Hcv Hrun.
  pose proof (cross_validate_wp (λ _, True) dataset scoring cv test_size w
                (λ _ _ _, I) (λ _ _ _, I) I) as Hwp.
  apply (wp_run _ _ _ _ _ Hrun) in Hwp as [_ Hpost].
  destruct Hpost as [(_ & -> & a & b & c & Hh)|(Hno & _)]; [|lia].
  exists (scores_dict [a] [b] [c]). split; [done|].
  split; [by rewrite Hh, list_lookup_middle|done].
Qed.
End CrossValidateFolds.

(** ** numpy operations on arrays of matching shapes *)

Section NumpyFacts.
Context {F : Type} `{Arith F}.
Implicit Types (u v : list F) (X : list (list F)).

Lemma broadcast_same (f : F → F → F) u v :
  length u = length v → broadcast f u v = Ok (zip_with f u v).
Proof. intros Hlen. unfold broadcast. by rewrite decide_True. Qed.

Lemma np_dot_mv_rows X v :
  Forall (λ row, length row = length v) X →
  np_dot_mv X v = Ok (map (λ row, inner row v) X).
Proof.
  intros Hrows. unfold np_dot_mv.
  replace (forallb _ X) with true; [done|].
  symmetry. apply forallb_forall. intros row Hrow.
  apply Nat.eqb_eq. rewrite Forall_forall in Hrows.
  by apply Hrows, list_elem_of_In.
Qed.

Lemma np_dot_vm_rows v X :
  length v = length X →
  np_dot_vm v X = Ok (map (λ j, inner v (column j X)) (seq 0 (ncols X))).
Proof. intros Hlen. unfold np_dot_vm. by rewrite decide_True. Qed.

Lemma py_div_float (a : pyval F) (x : F) (m : nat) :
  as_float a = Ok x → 0 < m →
  py_div a m = Ok (fdiv x (of_Z (Z.of_nat m))).
Proof.
  intros Ha Hm. unfold py_div. rewrite Ha. simpl.
  rewrite decide_False by lia. done.
Qed.

End NumpyFacts.

(** ** LogisticRegression *)

Section LogisticRegressionFacts.
Context {F : Type} `{Arith F} `{Externals F}.
Import LogisticRegression.
Implicit Types (dataset : Dataset F) (self : t F) (th ys : list F) (b : F).

Lemma length_scores (X : list (list F)) th b :
  length (scores X th b) = length X.
Proof. unfold scores. by rewrite !length_map. Qed.

Lemma length_residuals (X : list (list F)) ys th b :
  length ys = length X → length (residuals X ys th b) = length X.
Proof.
  intros Hlen. unfold residuals.
  rewrite length_zip_with, length_scores. lia.
Qed.

Lemma length_next_theta a l2 (X : list (list F)) ys th b :
  length th = ncols X → length (next_theta a l2 X ys th b) = ncols X.
Proof.
  intros Hlen. unfold next_theta.
  rewrite !length_zip_with, !length_map, length_seq. lia.
Qed.

Lemma linear_score_run dataset self th b :
  theta self = Some th → theta_zero self = Some b →
  Forall (λ row, length row = length th) (X dataset) →
  linear_score dataset self = Ok (scores (X dataset) th b).
Proof.
  intros Hth Hb Hrows. unfold linear_score.
  rewrite Hth, Hb, np_dot_mv_rows by done. done.
Qed.

Lemma cost_run dataset ys self th b l2 :
  valid_dataset dataset ys →
  theta self = Some th → theta_zero self = Some b →
  length th = ncols (X dataset) →
  as_float (l2_penalty self) = Ok l2 →
  cost dataset self = Ok (cost_value l2 (X dataset) ys th b).
Proof.
  intros (Hy & Hlen & Hm & Hrows) Hth Hb Hn Hl2. unfold cost.
  erewrite linear_score_run; [|done..|by rewrite Hn].
  simpl. rewrite Hy. simpl.
  rewrite broadcast_same
    by (by rewrite !length_map, length_scores).
  simpl.
  rewrite broadcast_same
    by (by rewrite !length_map, length_scores).
  simpl.
  rewrite broadcast_same
    by (rewrite !length_zip_with, !length_map, length_scores; lia).
  simpl. rewrite Hth, Hl2. done.
Qed.

(** One iteration on a valid dataset, from a state whose weights fit the
    dataset and whose hyper-parameters are numbers. *)
Lemma gradient_step_run dataset ys self th b a l2 i :
  valid_dataset dataset ys →
  theta self = Some th → theta_zero self = Some b →
  length th = ncols (X dataset) →
  as_float (alpha self) = Ok a →
  as_float (l2_penalty self) = Ok l2 →
  gradient_step dataset (length (X dataset)) i self =
  (Ok tt, after_step a l2 dataset ys i th b self).
Proof.
  intros Hvalid Hth Hb Hn Ha Hl2.
  pose proof Hvalid as (Hy & Hlen & Hm & Hrows).
  apply wp_eq. unfold gradient_step.
  apply wp_bind, wp_get. apply wp_bind, wp_lift.
  erewrite linear_score_run; [|done..|by rewrite Hn].
  apply wp_bind, wp_lift. rewrite (py_div_float _ (of_Z 1)) by done.
  apply wp_bind, wp_lift. rewrite Ha.
  apply wp_bind, wp_lift. rewrite Hy. simpl with_labels.
  rewrite broadcast_same by (by rewrite length_scores).
  apply wp_bind, wp_lift.
  rewrite np_dot_vm_rows
    by (rewrite length_zip_with, length_scores; lia).
  apply wp_bind, wp_lift. rewrite (py_div_float _ l2) by done.
  apply wp_bind, wp_lift. rewrite Hth.
  apply wp_bind, wp_lift.
  rewrite broadcast_same by (by rewrite !length_map, length_seq).
  apply wp_bind, wp_lift.
  rewrite broadcast_same
    by (rewrite length_zip_with, !length_map, length_seq; lia).
  apply wp_bind, wp_modify. apply wp_bind, wp_lift. rewrite Hb.
  apply wp_bind, wp_modify. apply wp_bind, wp_get.
  apply wp_bind, wp_lift.
  erewrite (cost_run dataset ys _ _ _ l2); [|done|done|done| |done].
  - apply wp_modify. done.
  - simpl. rewrite !length_zip_with, !length_map, length_seq. lia.
Qed.
Lemma length_descent a l2 (X : list (list F)) ys k :
  length (descent a l2 X ys k).1 = ncols X.
Proof.
  unfold descent. induction k as [|k IH]; simpl.
  - unfold np_zeros. by rewrite length_replicate.
  - by apply length_next_theta.
Qed.

Lemma histories_lookup_ge a l2 (X : list (list F)) ys k h i :
  k ≤ i → histories a l2 X ys k h !! i = h !! i.
Proof.
  induction k as [|k IH]; intros Hi; simpl; [done|].
  rewrite lookup_insert_ne by lia. apply IH. lia.
Qed.

Lemma histories_lookup_lt a l2 (X : list (list F)) ys k h i :
  i < k →
  histories a l2 X ys k h !! i =
  Some (cost_value l2 X ys (descent a l2 X ys (S i)).1
                           (descent a l2 X ys (S i)).2).
Proof.
  induction k as [|k IH]; intros Hi; [lia|]. simpl histories.
  destruct (decide (i = k)) as [->|Hne].
  - by rewrite lookup_insert_eq.
  - rewrite lookup_insert_ne by done. apply IH. lia.
Qed.

Lemma size_histories a l2 (X : list (list F)) ys k h :
  size (histories a l2 X ys k h) ≤ size h + k.
Proof.
  induction k as [|k IH]; simpl; [lia|].
  rewrite map_size_insert. destruct (_ !! k); simpl; unfold id; lia.
Qed.

(** The test of an iteration on a history that holds the costs it
    reads. *)
Lemma convergence_check_run i self :
  (0 < i → is_Some (cost_history self !! (i - 1)) ∧
           is_Some (cost_history self !! i)) →
  convergence_check i self =
  (Ok (if stops i (cost_history self) then Some tt else None), self).
Proof.
  intros Hh. unfold convergence_check, stops, converged.
  destruct (decide (0 < i)) as [Hi|Hi].
  - destruct (Hh Hi) as [[p Hp] [c Hc]].
    rewrite bool_decide_eq_true_2 by done. simpl.
    apply wp_eq. apply wp_bind, wp_get.
    unfold cost_history_get. apply wp_bind, wp_lift. rewrite Hp.
    apply wp_bind, wp_lift. rewrite Hc.
    by destruct (flt (fsub p c) c_tol).
  - by rewrite bool_decide_eq_false_2.
Qed.

Section Run.
Context (dataset : Dataset F) (ys : list F) (self : t F) (a l2 : F).
Context (Hvalid : valid_dataset dataset ys).
Context (Ha : as_float (alpha self) = Ok a).
Context (Hl2 : as_float (l2_penalty self) = Ok l2).

Local Abbreviation state := (state_after a l2 dataset ys).
Local Abbreviation stop :=
  (λ i, stops i (histories a l2 (X dataset) ys (S i) (cost_history self))).

Lemma state_after_gradient_step k :
  gradient_step dataset (length (X dataset)) k (state k self) =
  (Ok tt, state (S k) self).
Proof using Hvalid Ha Hl2.
  erewrite gradient_step_run; [done|done|done|done| |done|done].
  apply length_descent.
Qed.

Lemma state_after_iteration k :
  fit_iteration dataset (length (X dataset)) k (state k self) =
  (Ok (if stop k then Some tt else None), state (S k) self).
Proof using Hvalid Ha Hl2.
  unfold fit_iteration, bind. rewrite state_after_gradient_step.
  rewrite convergence_check_run; [done|].
  intros Hk. unfold state_after. cbn [cost_history].
  rewrite !histories_lookup_lt by lia. by split; eexists.
Qed.

Lemma state_after_steps k :
  for_each (seq 0 k) (gradient_step dataset (length (X dataset)))
    (state 0 self) =
  (Ok tt, state k self).
Proof using Hvalid Ha Hl2.
  induction k as [|k IH]; [done|].
  rewrite seq_S. simpl.
  rewrite for_each_app. unfold bind at 1. rewrite IH. simpl.
  unfold bind. by rewrite state_after_gradient_step.
Qed.

Lemma state_after_loop len j :
  ∃ r, for_in (seq j len) (fit_iteration dataset (length (X dataset)))
         (state j self) =
       (Ok r, state (iterations_run stop j len) self).
Proof using Hvalid Ha Hl2.
  revert j. induction len as [|len IH]; intros j; simpl.
  - by exists None.
  - unfold bind. rewrite state_after_iteration.
    destruct (stops j _); [by exists (Some tt)|]. apply IH.
Qed.

Lemma fit_run n :
  max_iter self = PInt n →
  fit dataset self =
  (Ok tt, state (iterations_run stop 0 (Z.to_nat n)) self).
Proof using Hvalid Ha Hl2.
  intros Hn. unfold fit. simpl.
  apply wp_eq. apply wp_bind, wp_modify. apply wp_bind, wp_modify.
  apply wp_bind, wp_get. apply wp_bind, wp_lift.
  unfold iterations. simpl. rewrite Hn. apply wp_bind.
  destruct (state_after_loop (Z.to_nat n) 0) as [r Hr].
  unfold wp, range.
  change (set_theta_zero _ (set_theta _ self)) with (state 0 self).
  by rewrite Hr.
Qed.
End Run.
(** Whatever happens in it, iteration [i] writes the history at [i]
    only. *)
Lemma gradient_step_history dataset m i self j :
  i ≠ j →
  cost_history (gradient_step dataset m i self).2 !! j =
  cost_history self !! j.
Proof.
  intros Hne.
  change (wp (gradient_step dataset m i)
            (λ _ s', cost_history s' !! j = cost_history self !! j) self).
  unfold gradient_step.
  apply wp_bind, wp_get.
  repeat (apply wp_bind;
          first [ apply wp_modify | apply wp_get | wp_lift_case ]).
  apply wp_modify. simpl. by rewrite lookup_insert_ne.
Qed.

Lemma convergence_check_state i self :
  (convergence_check i self).2 = self.
Proof.
  unfold convergence_check. destruct (decide (0 < i)); [|done].
  unfold bind, get, lift, ret. simpl.
  repeat case_match; simplify_eq; done.
Qed.

(** Whether it returns or raises, [fit] leaves the history as it was
    from [max_iter] on. *)
Lemma fit_history_frame dataset self n j :
  max_iter self = PInt n → Z.to_nat n ≤ j →
  cost_history (fit dataset self).2 !! j = cost_history self !! j.
Proof.
  intros Hn Hj.
  change (wp (fit dataset)
            (λ _ s', cost_history s' !! j = cost_history self !! j) self).
  unfold fit. simpl.
  apply wp_bind, wp_modify. apply wp_bind, wp_modify. apply wp_bind, wp_get.
  apply wp_bind, wp_lift. unfold iterations. simpl. rewrite Hn.
  apply wp_bind.
  eapply wp_mono;
    [|apply (wp_for_in
               (λ s', cost_history s' !! j = cost_history self !! j))
        with (Q := λ _ s', cost_history s' !! j = cost_history self !! j)];
    [by intros [|] ?| done | | done].
  intros i s Hi Hs. unfold fit_iteration. apply wp_bind.
  unfold wp at 1.
  assert (i ≠ j) as Hne.
  { apply elem_of_seq in Hi. lia. }
  pose proof (gradient_step_history dataset (length (X dataset)) i s j Hne)
    as Hg.
  destruct (gradient_step _ _ i s) as [[[]|e] s1]; simpl in *;
    [|congruence].
  unfold wp. pose proof (convergence_check_state i s1) as Hc.
  destruct (convergence_check i s1) as [[[|]|] s2]; simpl in *; congruence.
Qed.

Lemma iterations_run_bounds (stop : nat → bool) j len :
  j ≤ iterations_run stop j len ≤ j + len.
Proof.
  revert j. induction len as [|len IH]; intros j; simpl; [lia|].
  destruct (stop j); [lia|]. specialize (IH (S j)). lia.
Qed.


(** No iteration before the last one run met the test. *)
Lemma iterations_run_continued (stop : nat → bool) j len i :
  j ≤ i → S i < iterations_run stop j len → stop i = false.
Proof.
  revert j. induction len as [|len IH]; intros j Hj Hi; simpl in *; [lia|].
  destruct (stop j) eqn:Hs; [lia|].
  destruct (decide (i = j)) as [->|Hne]; [done|].
  apply (IH (S j)); [lia|done].
Qed.

(** A loop that ends before its range is exhausted ended on the test. *)
Lemma iterations_run_early (stop : nat → bool) j len :
  iterations_run stop j len < j + len →
  j < iterations_run stop j len ∧
  stop (iterations_run stop j len - 1) = true.
Proof.
  revert j. induction len as [|len IH]; intros j Hk; simpl in *; [lia|].
  destruct (stop j) eqn:Hs.
  - split; [lia|]. by rewrite Nat.sub_succ, Nat.sub_0_r.
  - destruct (IH (S j)) as [Hlt Hstop]; [lia|]. split; [lia|done].
Qed.

Lemma converged_histories a l2 (X : list (list F)) ys h i k :
  0 < i → i < k →
  converged i (histories a l2 X ys k h) =
  converged i (histories a l2 X ys (S i) h).
Proof.
  intros Hi Hk. unfold converged.
  by rewrite !histories_lookup_lt by lia.
Qed.

(** C5. Whatever the dataset and the configuration, and whether [fit]
    returns or raises, it writes [cost_history] below [max_iter] only, so
    the history gains at most [max_iter] entries.  On a valid labeled
    dataset and with numeric hyper-parameters, [fit] returns after some
    number [k] of gradient-descent iterations that is at most
    [max_iter]: it writes the entries [0 .. k-1] of [cost_history] and no
    other; as soon as an iteration [i > 0] finds
    [cost_history[i-1] - cost_history[i] < 0.0001], it is the last one
    run; and [fit] runs fewer than [max_iter] iterations only when the
    last one met that test. *)
Theorem fit_iterations dataset self n :
  max_iter self = PInt n →
  (∀ j, Z.to_nat n ≤ j →
     cost_history (fit dataset self).2 !! j = cost_history self !! j) ∧
  ∀ ys a l2,
    valid_dataset dataset ys →
    as_float (alpha self) = Ok a →
    as_float (l2_penalty self) = Ok l2 →
    ∃ k self',
      fit dataset self = (Ok tt, self') ∧
      for_each (seq 0 k) (gradient_step dataset (length (X dataset)))
        (set_theta_zero (Some f0)
           (set_theta (Some (np_zeros (ncols (X dataset)))) self))
        = (Ok tt, self') ∧
      k ≤ Z.to_nat n ∧
      (∀ j, k ≤ j → cost_history self' !! j = cost_history self !! j) ∧
      size (cost_history self') ≤ size (cost_history self) + Z.to_nat n ∧
      (∀ i, 0 < i → i < k → converged i (cost_history self') → S i = k) ∧
      (k < Z.to_nat n → 1 < k ∧ converged (k - 1) (cost_history self')).
Proof.
  intros Hn. split; [intros j Hj; by apply (fit_history_frame _ _ n)|].
  intros ys a l2 Hvalid Ha Hl2.
  set (stop := λ i, stops i (histories a l2 (X dataset) ys (S i)
                               (cost_history self))).
  set (k := iterations_run stop 0 (Z.to_nat n)).
  pose proof (iterations_run_bounds stop 0 (Z.to_nat n)) as Hk.
  fold k in Hk.
  exists k, (state_after a l2 dataset ys k self).
  split; [by apply fit_run|].
  split; [by apply (state_after_steps dataset ys self a l2)|].
  split; [lia|]. cbn [state_after cost_history].
  split; [intros j Hj; by apply histories_lookup_ge|].
  split; [pose proof (size_histories a l2 (X dataset) ys k
                        (cost_history self)); lia|].
  split.
  - intros i Hi Hik Hconv.
    destruct (decide (S i = k)) as [|Hne]; [done|]. exfalso.
    assert (stop i = false) as Hstop.
    { apply (iterations_run_continued stop 0 (Z.to_nat n)); [lia|].
      fold k. lia. }
    unfold stop, stops in Hstop.
    rewrite bool_decide_eq_true_2 in Hstop by done. cbn [andb] in Hstop.
    rewrite (converged_histories _ _ _ _ _ i k) in Hconv by done.
    by rewrite Hstop in Hconv.
  - intros Hlt.
    destruct (iterations_run_early stop 0 (Z.to_nat n)) as [Hpos Hstop];
      [fold k; lia|].
    fold k in Hpos, Hstop. unfold stop, stops in Hstop.
    apply andb_true_iff in Hstop as [Hi Hconv].
    apply bool_decide_eq_true in Hi.
    split; [lia|].
    replace (S (k - 1)) with k in Hconv by lia. by rewrite Hconv.
Qed.
(** *** The update rule *)




(** *** predict and score *)

(** The two masked assignments of [predict] amount to the threshold. *)
Lemma masked_threshold (ps : list F) :
  let mask := map (λ p, fge p c_half) ps in
  masked_assign (masked_assign ps mask f1) (map negb mask) f0 =
  map (λ p, if fge p c_half then f1 else f0) ps.
Proof.
  unfold masked_assign. induction ps as [|p ps IH]; [done|]. simpl in *.
  rewrite IH. by destruct (fge p c_half).
Qed.

Lemma predict_run dataset self th b :
  theta self = Some th → theta_zero self = Some b →
  Forall (λ row, length row = length th) (X dataset) →
  predict dataset self = Ok (map threshold (scores (X dataset) th b)).
Proof.
  intros Hth Hb Hrows. unfold predict.
  rewrite (linear_score_run dataset self th b) by done. simpl.
  rewrite masked_threshold, map_map. done.
Qed.

(** C9. On a valid labeled dataset with [n_samples] rows and with numeric
    hyper-parameters, [fit] returns, and [predict] on that dataset then
    returns the vector that holds, for each sample, one when the sigmoid
    of its linear score [X·theta + theta_zero] is at least 0.5 and zero
    otherwise: a vector of length [n_samples] whose entries are all zero
    or one. *)
Theorem predict_after_fit dataset ys self a l2 n :
  valid_dataset dataset ys →
  as_float (alpha self) = Ok a →
  as_float (l2_penalty self) = Ok l2 →
  max_iter self = PInt n →
  ∃ self' th b labels,
    fit dataset self = (Ok tt, self') ∧
    theta self' = Some th ∧ theta_zero self' = Some b ∧
    predict dataset self' = Ok labels ∧
    labels =
      map (λ z, if fge (sigmoid_function z) c_half then f1 else f0)
          (map (λ s, fadd s b) (map (λ row, inner row th) (X dataset))) ∧
    length labels = length (X dataset) ∧
    Forall (λ p, p = f0 ∨ p = f1) labels.
Proof.
  intros Hvalid Ha Hl2 Hn.
  set (stop := λ i, stops i (histories a l2 (X dataset) ys (S i)
                               (cost_history self))).
  set (k := iterations_run stop 0 (Z.to_nat n)).
  set (p := descent a l2 (X dataset) ys k).
  exists (state_after a l2 dataset ys k self), p.1, p.2,
         (map threshold (scores (X dataset) p.1 p.2)).
  split; [by apply fit_run|]. split; [done|]. split; [done|].
  split.
  { apply predict_run; [done..|].
    destruct Hvalid as (_ & _ & _ & Hrows).
    unfold p. by rewrite length_descent. }
  split; [done|].
  split; [by rewrite length_map, length_scores|].
  apply Forall_forall. intros x Hx.
  apply list_elem_of_In, in_map_iff in Hx as (z & <- & _).
  unfold threshold. destruct (fge _ _); auto.
Qed.
End LogisticRegressionFacts.

(** *** An estimator that was never fit *)

Section Unfit.
Context {F : Type} `{Arith F} `{Externals F}.
Import LogisticRegression.

(** C7, as amended.  Neither [predict] nor [score] checks that the
    estimator was fit.  On an estimator fresh from its constructor they
    hand the [None] parameters to the linear score, and for a dataset
    with at least one feature value the arithmetic between a float and
    [None] raises [TypeError]. *)
Theorem predict_unfit (dataset : Dataset F) (l2 a mi : pyval F) :
  concat (X dataset) ≠ [] →
  predict dataset (init l2 a mi) = Raise TypeError ∧
  score dataset (init l2 a mi) = Raise TypeError.
Proof.
  intros Hne.
  assert (predict dataset (init l2 a mi) = Raise TypeError) as Hp.
  { unfold predict, linear_score, init, none_operand. simpl.
    by destruct (concat (X dataset)). }
  split; [done|]. unfold score. by rewrite Hp.
Qed.
End Unfit.

(** ** binary64: values that are not finite *)

Module B64Facts.
Import B64.







Lemma nonfinite_log_zero s : nonfinite (log (S754_zero s)).
Proof. done. Qed.


End B64Facts.

(** ** The cost in binary64 *)

Section CostBinary64.
Import B64 B64Facts LogisticRegression.


End CostBinary64.

(** ** fit leaves the hyper-parameters alone *)

Section Hyperparameters.
Context {F : Type} `{Arith F} `{Externals F}.
Import LogisticRegression.

Lemma gradient_step_hyperparameters (dataset : Dataset F) m i self :
  hyperparameters (gradient_step dataset m i self).2 = hyperparameters self.
Proof.
  change (wp (gradient_step dataset m i)
            (λ _ s', hyperparameters s' = hyperparameters self) self).
  unfold gradient_step.
  apply wp_bind, wp_get.
  repeat (apply wp_bind;
          first [ apply wp_modify | apply wp_get | wp_lift_case ]).
  by apply wp_modify.
Qed.

Lemma fit_hyperparameters (dataset : Dataset F) self :
  hyperparameters (fit dataset self).2 = hyperparameters self.
Proof.
  change (wp (fit dataset)
            (λ _ s', hyperparameters s' = hyperparameters self) self).
  unfold fit. simpl.
  apply wp_bind, wp_modify. apply wp_bind, wp_modify. apply wp_bind, wp_get.
  apply wp_bind. wp_lift_case.
  apply wp_bind.
  eapply wp_mono;
    [|apply (wp_for_in (λ s', hyperparameters s' = hyperparameters self))
        with (Q := λ _ s', hyperparameters s' = hyperparameters self)];
    [by intros [|] ?| done | | done].
  intros i s _ Hs. unfold fit_iteration. apply wp_bind.
  unfold wp at 1.
  pose proof (gradient_step_hyperparameters dataset
                (length (X dataset)) i s) as Hg.
  destruct (gradient_step _ _ i s) as [[[]|e] s1]; simpl in *;
    [|congruence].
  unfold wp. pose proof (convergence_check_state i s1) as Hc.
  destruct (convergence_check i s1) as [[[|]|] s2]; simpl in *; congruence.
Qed.
Lemma lr_getattr_hyperparameters (s1 s2 : t F) (k : string) :
  hyperparameters s1 = hyperparameters s2 →
  k ∈ ["l2_penalty"; "alpha"; "max_iter"] →
  lr_getattr s1 k = lr_getattr s2 k.
Proof.
  intros [= H1 H2 H3] Hk. unfold lr_getattr.
  repeat (apply elem_of_cons in Hk as [->|Hk]; [simpl; congruence|]).
  by apply elem_of_nil in Hk.
Qed.

(** The attributes [grid_search] may tune on a [LogisticRegression]: they
    are read back as assigned, and [fit] and [score] leave them alone. *)
Lemma lr_getattr_setattr (k : string) (v : pyval F) (m : t F) :
  k ∈ ["l2_penalty"; "alpha"; "max_iter"] →
  getattr (setattr k v m) k = Some v.
Proof.
  intros Hk.
  repeat (apply elem_of_cons in Hk as [->|Hk]; [done|]).
  by apply elem_of_nil in Hk.
Qed.

Lemma lr_getattr_setattr_ne (k k' : string) (v : pyval F) (m : t F) :
  k ∈ ["l2_penalty"; "alpha"; "max_iter"] →
  k' ∈ ["l2_penalty"; "alpha"; "max_iter"] →
  k ≠ k' → getattr (setattr k' v m) k = getattr m k.
Proof.
  intros Hk Hk' Hne.
  repeat (apply elem_of_cons in Hk as [->|Hk]);
    [| | |by apply elem_of_nil in Hk];
    (repeat (apply elem_of_cons in Hk' as [->|Hk']);
     [| | |by apply elem_of_nil in Hk']); done.
Qed.

Lemma lr_getattr_fit (k : string) (dataset : Dataset F) (m : t F) :
  k ∈ ["l2_penalty"; "alpha"; "max_iter"] →
  getattr (model_fit dataset m).2 k = getattr m k.
Proof.
  intros Hk. simpl.
  apply lr_getattr_hyperparameters; [apply fit_hyperparameters|done].
Qed.
End Hyperparameters.

(** ** Edge cases of cross_validate and grid_search *)

Section ModelSelectionEdges.
Context {F M R : Type} `{Estimator F M} `{Sampling F R}.
Implicit Types (w : World F M R).

(** A loop whose first pass returns or raises never starts a second
    pass. *)
Lemma for_in_first {S A B} (x : A) (xs : list A)
    (body : A → St S (option B)) s :
  (body x s).1 ≠ Ok None → for_in (x :: xs) body s = for_in [x] body s.
Proof.
  intros Hx. simpl. unfold bind.
  by destruct (body x s) as [[[v|]|e] s'].
Qed.

Lemma bind_not_none {S A B} (c : St S A) (k : A → St S (option B)) s :
  (∀ a s', (k a s').1 ≠ Ok None) → (bind c k s).1 ≠ Ok None.
Proof.
  intros Hk. unfold bind. destruct (c s) as [[a|e] s']; [apply Hk|done].
Qed.

Lemma bind_cong_r {S A B} (c : St S A) (k k' : A → St S B) s :
  (∀ a s', k a s' = k' a s') → bind c k s = bind c k' s.
Proof. intros Hk. unfold bind. by destruct (c s) as [[a|e] s']. Qed.

Lemma bind_cong_l {S A B} (c c' : St S A) (k : A → St S B) s :
  c s = c' s → bind c k s = bind c' k s.
Proof. intros Hc. unfold bind. by rewrite Hc. Qed.

Lemma cartesian_empty_pool {A} (pools : list (list A)) :
  [] ∈ pools → cartesian pools = [].
Proof.
  induction pools as [|pool pools IH]; intros Hin.
  - by apply elem_of_nil in Hin.
  - apply elem_of_cons in Hin as [<-|Hin]; [done|].
    simpl. rewrite (IH Hin). by induction pool.
Qed.

Lemma head_cartesian {A} (pools : list (list A)) (c : list A) :
  Forall2 (λ pool v, head pool = Some v) pools c →
  head (cartesian pools) = Some c.
Proof.
  induction 1 as [|pool v pools c Hv _ IH]; [done|].
  destruct pool as [|v' pool]; simplify_eq/=.
  destruct (cartesian pools) as [|c' cs]; by simplify_eq/=.
Qed.

(** With [cv <= 0] the loop of [cross_validate] has nothing to run and
    the function falls off its end: it answers [None], not a dictionary
    of scores.  The model was not fitted and no random number was
    drawn; the dictionary with the three empty lists was created and is
    lost. *)
Theorem cross_validate_no_fold dataset scoring cv test_size w :
  (cv ≤ 0)%Z →
  cross_validate dataset scoring cv test_size w =
  (Ok PNone,
   mkWorld (model w) (rng w) (heap w ++ [scores_dict [] [] []])).
Proof.
  intros Hcv. unfold cross_validate, range.
  replace (Z.to_nat cv) with 0 by lia. done.
Qed.

(** The number of folds asked for makes no difference as soon as it is
    at least one: the result, the exception if there is one, the model,
    the generator and the dictionaries are those of [cv = 1]. *)
Theorem cross_validate_folds_ignored dataset scoring cv test_size w :
  (1 ≤ cv)%Z →
  cross_validate dataset scoring cv test_size w =
  cross_validate dataset scoring 1 test_size w.
Proof.
  intros Hcv. unfold cross_validate, range.
  destruct (Z.to_nat cv) as [|n] eqn:Hn; [lia|].
  rewrite <- cons_seq. change (seq 0 (Z.to_nat 1)) with [0].
  apply bind_cong_r. intros scores w1. apply bind_cong_l.
  apply for_in_first.
  repeat (apply bind_not_none; intros).
  done.
Qed.

(** A parameter grid one of whose value lists is empty has no
    combination: once the keys are validated, [grid_search] returns the
    empty list without touching the model, the generator or the heap. *)
Theorem grid_search_empty_value_list dataset
    (parameter_grid : list (string * list (pyval F)))
    scoring cv test_size w :
  Forall (λ k, hasattr (model w) k) parameter_grid.*1 →
  [] ∈ parameter_grid.*2 →
  grid_search dataset parameter_grid scoring cv test_size w = (Ok [], w).
Proof.
  intros Hattr Hempty. unfold grid_search. unfold bind at 1.
  rewrite validation_run.
  destruct (list_find _ _) as [[i k]|] eqn:Hfind.
  - apply list_find_Some in Hfind as (Hk & Hno & _).
    exfalso. apply Hno. rewrite Forall_lookup in Hattr. by apply (Hattr i).
  - by rewrite product_cartesian, cartesian_empty_pool.
Qed.

(** With [cv <= 0] and a grid that has a combination, [grid_search]
    raises [TypeError] at [score["parameters"] = parameters], because
    [cross_validate] answered [None].  By then the first combination
    (the first value of every list) has been assigned to the model, and
    its parameter dictionary and an empty score dictionary have been
    created. *)
Theorem grid_search_no_fold dataset
    (parameter_grid : list (string * list (pyval F)))
    scoring cv test_size w combination :
  Forall (λ k, hasattr (model w) k) parameter_grid.*1 →
  Forall2 (λ kv v, head kv.2 = Some v) parameter_grid combination →
  (cv ≤ 0)%Z →
  grid_search dataset parameter_grid scoring cv test_size w =
  (Raise TypeError,
   mkWorld (assign_all (zip parameter_grid.*1 combination) (model w))
           (rng w)
           (heap w ++ [assignment (zip parameter_grid.*1 combination);
                       scores_dict [] [] []])).
Proof.
  intros Hattr Hfirst Hcv. unfold grid_search. unfold bind at 1.
  rewrite validation_run.
  destruct (list_find _ _) as [[i k]|] eqn:Hfind.
  { apply list_find_Some in Hfind as (Hk & Hno & _).
    exfalso. apply Hno. rewrite Forall_lookup in Hattr. by apply (Hattr i). }
  rewrite product_cartesian.
  assert (head (cartesian parameter_grid.*2) = Some combination) as Hhead.
  { apply head_cartesian. clear -Hfirst.
    induction Hfirst; simpl; by constructor. }
  destruct (cartesian parameter_grid.*2) as [|c cs]; simplify_eq/=.
  apply wp_eq. apply wp_bind. unfold grid_point.
  apply wp_bind, wp_new_dict. apply wp_bind.
  unfold wp at 1. erewrite set_parameters_run by done. simpl.
  apply wp_bind. unfold wp at 1.
  unfold cross_validate, range. replace (Z.to_nat cv) with 0 by lia.
  simpl.
  apply wp_bind. unfold wp. simpl. by rewrite <- app_assoc.
Qed.
End ModelSelectionEdges.

(** ** Edge cases of LogisticRegression *)

Section EstimatorEdges.
Context {F : Type} `{Arith F} `{Externals F}.
Import LogisticRegression.

(** The state [fit] starts its loop from. *)
Lemma fit_start (dataset : Dataset F) self :
  fit dataset self =
  bind (lift (iterations self))
       (λ indices,
          bind (for_in indices (fit_iteration dataset (length (X dataset))))
               (λ _, ret tt))
       (set_theta_zero (Some f0)
          (set_theta (Some (np_zeros (ncols (X dataset)))) self)).
Proof. done. Qed.

(** With [max_iter <= 0] the loop of [fit] has nothing to run: [fit]
    returns with the zero vector and a zero intercept and leaves
    [cost_history] as it was, without reading the samples or the labels,
    which may be missing. *)
Theorem fit_without_iterations (dataset : Dataset F) self n :
  max_iter self = PInt n → (n ≤ 0)%Z →
  fit dataset self =
  (Ok tt,
   mk (l2_penalty self) (alpha self) (max_iter self)
      (Some (np_zeros (ncols (X dataset)))) (Some f0) (cost_history self)).
Proof.
  intros Hn Hle. rewrite fit_start. apply wp_eq.
  apply wp_bind, wp_lift. unfold iterations, range. simpl max_iter.
  rewrite Hn. replace (Z.to_nat n) with 0 by lia.
  unfold wp, set_theta_zero, set_theta. simpl. by rewrite Hn.
Qed.

(** On a dataset without samples and with [max_iter >= 1], [fit] raises
    [ZeroDivisionError] at [1 / m] in its first iteration, whatever the
    labels and the hyper-parameters are.  The parameters were reset
    before: the estimator is left with an empty [theta] and a zero
    intercept. *)
Theorem fit_no_samples (labels : option (list F)) self n :
  max_iter self = PInt n → (0 < n)%Z →
  fit (mkDataset [] labels) self =
  (Raise ZeroDivisionError,
   mk (l2_penalty self) (alpha self) (max_iter self)
      (Some []) (Some f0) (cost_history self)).
Proof.
  intros Hn Hpos. rewrite fit_start. apply wp_eq.
  apply wp_bind, wp_lift. unfold iterations, range. simpl max_iter.
  rewrite Hn. destruct (Z.to_nat n) as [|k] eqn:Hk; [lia|].
  rewrite <- cons_seq. unfold wp, set_theta_zero, set_theta. simpl.
  by rewrite Hn.
Qed.

(** On a dataset with samples and without labels, [fit] with
    [max_iter >= 1] raises [TypeError] in its first iteration: there is
    no check for the labels, and the failure is that of arithmetic with
    [None].  The parameters were reset before. *)
Theorem fit_unlabeled (samples : list (list F)) self n :
  max_iter self = PInt n → (0 < n)%Z →
  samples ≠ [] →
  Forall (λ row, length row = ncols samples) samples →
  fit (mkDataset samples None) self =
  (Raise TypeError,
   mk (l2_penalty self) (alpha self) (max_iter self)
      (Some (np_zeros (ncols samples))) (Some f0) (cost_history self)).
Proof.
  intros Hn Hpos Hne Hrows. rewrite fit_start. apply wp_eq.
  apply wp_bind, wp_lift. unfold iterations, range. simpl max_iter.
  rewrite Hn. destruct (Z.to_nat n) as [|k] eqn:Hk; [lia|].
  rewrite <- cons_seq. simpl X.
  apply wp_bind. simpl for_in. apply wp_bind.
  unfold fit_iteration. apply wp_bind.
  unfold gradient_step. apply wp_bind, wp_get.
  apply wp_bind, wp_lift.
  erewrite linear_score_run; [|done|done|]; simpl;
    [|unfold np_zeros; by rewrite length_replicate].
  apply wp_bind, wp_lift.
  rewrite (py_div_float (PInt 1) (of_Z 1)); [|done|];
    [|destruct samples; simpl; [done|lia]].
  apply wp_bind, wp_lift.
  destruct (as_float (alpha self)) as [a|e] eqn:Ha.
  - apply wp_bind, wp_lift. simpl with_labels.
    destruct samples as [|row rows]; [done|].
    unfold wp, set_theta_zero, set_theta. simpl. by rewrite Hn.
  - assert (e = TypeError) as ->.
    { unfold as_float in Ha. by destruct (alpha self); simplify_eq. }
    unfold wp, set_theta_zero, set_theta. simpl. by rewrite Hn.
Qed.

(** [predict] and [score] on samples whose number of features is not the
    length of [theta] raise [ValueError], the failure of [np.dot] on
    shapes that do not fit. *)
Theorem predict_feature_mismatch (dataset : Dataset F) self th :
  theta self = Some th →
  Exists (λ row, length row ≠ length th) (X dataset) →
  predict dataset self = Raise ValueError ∧
  score dataset self = Raise ValueError.
Proof.
  intros Hth Hex.
  assert (linear_score dataset self = Raise ValueError) as Hz.
  { unfold linear_score, np_dot_mv. rewrite Hth.
    replace (forallb _ (X dataset)) with false; [done|].
    symmetry. apply not_true_is_false. intros Hall.
    rewrite forallb_forall in Hall.
    apply Exists_exists in Hex as (row & Hrow & Hlen).
    apply Hlen, Nat.eqb_eq, Hall. by apply list_elem_of_In. }
  unfold score, predict. by rewrite Hz.
Qed.

(** [fit] starts from the zero vector whatever the estimator held: a
    second [fit] does not continue from the parameters of the first. *)
Theorem fit_restarts_from_zero (dataset : Dataset F) self th b :
  fit dataset (set_theta th (set_theta_zero b self)) = fit dataset self.
Proof. by rewrite !fit_start. Qed.

(** Whenever [predict] returns, every entry of its result is zero or
    one, whatever the parameters of the estimator are (a score that is
    not a number gives zero). *)
Theorem predict_binary (dataset : Dataset F) self labels :
  predict dataset self = Ok labels →
  Forall (λ p, p = f0 ∨ p = f1) labels ∧
  (is_Some (theta self) → length labels = length (X dataset)).
Proof.
  unfold predict. intros Hrun.
  destruct (linear_score dataset self) as [z|e] eqn:Hz; [|done].
  simpl in Hrun. rewrite masked_threshold in Hrun. simplify_eq. split.
  - apply Forall_forall. intros p Hp.
    apply list_elem_of_In, in_map_iff in Hp as (q & <- & _).
    destruct (fge q c_half); auto.
  - intros [th Hth]. rewrite !length_map.
    unfold linear_score in Hz. rewrite Hth in Hz.
    unfold np_dot_mv in Hz. destruct (forallb _ _); [|done].
    simpl in Hz. destruct (theta_zero self); simpl in Hz.
    + simplify_eq. by rewrite !length_map.
    + unfold none_operand in Hz.
      destruct (map _ (X dataset)) eqn:Hmap; simplify_eq.
      apply (f_equal length) in Hmap. by rewrite length_map in Hmap.
Qed.
End EstimatorEdges.

(** *** What fit leaves behind when it fails *)

Section FitInvariants.
Context {F : Type} `{Arith F} `{Externals F}.
Import LogisticRegression.

Lemma np_dot_vm_length (v : list F) (X : list (list F)) g :
  np_dot_vm v X = Ok g → length g = ncols X.
Proof.
  unfold np_dot_vm. destruct (decide _); [|done].
  intros [= <-]. by rewrite length_map, length_seq.
Qed.

(** One iteration keeps a weight for each feature and an intercept,
    also when it raises. *)
Lemma gradient_step_parameters (dataset : Dataset F) m i self :
  (∃ th b, theta self = Some th ∧ length th = ncols (X dataset) ∧
           theta_zero self = Some b) →
  ∃ th b, theta (gradient_step dataset m i self).2 = Some th ∧
          length th = ncols (X dataset) ∧
          theta_zero (gradient_step dataset m i self).2 = Some b.
Proof.
  intros HI. pose proof HI as (th & b & Hth & Hlen & Hb).
  change (wp (gradient_step dataset m i)
            (λ _ s', ∃ th b, theta s' = Some th ∧
                             length th = ncols (X dataset) ∧
                             theta_zero s' = Some b) self).
  unfold gradient_step. apply wp_bind, wp_get.
  do 4 (apply wp_bind; wp_lift_case).
  apply wp_bind, wp_lift.
  destruct (np_dot_vm _ _) as [g|e] eqn:Hg; [|done].
  apply np_dot_vm_length in Hg.
  apply wp_bind; wp_lift_case.
  apply wp_bind, wp_lift. rewrite Hth.
  apply wp_bind, wp_lift.
  rewrite broadcast_same by (rewrite length_map; congruence).
  apply wp_bind, wp_lift.
  rewrite broadcast_same
    by (rewrite length_zip_with, !length_map; lia).
  apply wp_bind, wp_modify.
  apply wp_bind, wp_lift. rewrite Hb.
  apply wp_bind, wp_modify. apply wp_bind, wp_get.
  apply wp_bind, wp_lift.
  destruct (cost _ _) as [c|e]; [apply wp_modify|];
    (eexists _, _; split; [done|]; split; [|done];
     rewrite !length_zip_with, !length_map; lia).
Qed.

(** Whether [fit] returns or raises, whatever the dataset and the
    hyper-parameters, it leaves the estimator with a weight for each
    feature and an intercept: [theta] and [theta_zero] are never [None]
    after a call of [fit], also after one that failed. *)
Theorem fit_assigns_parameters (dataset : Dataset F) self :
  ∃ th b, theta (fit dataset self).2 = Some th ∧
          length th = ncols (X dataset) ∧
          theta_zero (fit dataset self).2 = Some b.
Proof.
  change (wp (fit dataset)
            (λ _ s', ∃ th b, theta s' = Some th ∧
                             length th = ncols (X dataset) ∧
                             theta_zero s' = Some b) self).
  assert (∃ th b,
            theta (set_theta_zero (Some f0)
                     (set_theta (Some (np_zeros (ncols (X dataset)))) self))
              = Some th ∧
            length th = ncols (X dataset) ∧
            theta_zero (set_theta_zero (Some f0)
                     (set_theta (Some (np_zeros (ncols (X dataset)))) self))
              = Some b) as Hstart.
  { eexists _, _. split; [done|]. split; [|done].
    unfold np_zeros. by rewrite length_replicate. }
  unfold fit. simpl.
  apply wp_bind, wp_modify. apply wp_bind, wp_modify. apply wp_bind, wp_get.
  apply wp_bind. wp_lift_case.
  apply wp_bind.
  eapply wp_mono;
    [|apply (wp_for_in
               (λ s', ∃ th b, theta s' = Some th ∧
                              length th = ncols (X dataset) ∧
                              theta_zero s' = Some b))
        with (Q := λ _ s', ∃ th b, theta s' = Some th ∧
                                   length th = ncols (X dataset) ∧
                                   theta_zero s' = Some b)];
    [by intros [|] ?| done | | done].
  intros i s _ Hs. unfold fit_iteration. apply wp_bind.
  unfold wp at 1.
  pose proof (gradient_step_parameters dataset
                (length (X dataset)) i s Hs) as Hg.
  destruct (gradient_step _ _ i s) as [[[]|e] s1]; simpl in *; [|done].
  unfold wp. pose proof (convergence_check_state i s1) as Hc.
  destruct (convergence_check i s1) as [[[|]|] s2]; simpl in *;
    by subst.
Qed.

(** Whether [fit] returns or raises, it leaves the three
    hyper-parameters as they were. *)
Theorem fit_keeps_configuration (dataset : Dataset F) self :
  l2_penalty (fit dataset self).2 = l2_penalty self ∧
  alpha (fit dataset self).2 = alpha self ∧
  max_iter (fit dataset self).2 = max_iter self.
Proof.
  pose proof (fit_hyperparameters dataset self) as Heq.
  unfold hyperparameters in Heq. by simplify_eq.
Qed.
End FitInvariants.

(** ** Strings, slices and windows *)

Section SliceFacts.
Context {A : Type}.
Implicit Types (s : list A).

(** A slice that starts inside the sequence and runs forward. *)
Lemma slice_window s (i : nat) (k : Z) :
  (0 ≤ k)%Z → i ≤ length s →
  slice s (Z.of_nat i) (Z.of_nat i + k) = take (Z.to_nat k) (drop i s).
Proof.
  intros Hk Hi. unfold slice, slice_bound.
  rewrite !decide_False by lia.
  replace (Z.to_nat (Z.min (Z.of_nat i) (Z.of_nat (length s)))) with i by lia.
  destruct (decide (i + Z.to_nat k ≤ length s)) as [Hle|Hgt].
  - f_equal. lia.
  - rewrite !take_ge; [done|rewrite length_drop; lia..].
Qed.
End SliceFacts.

Lemma range_windows (len : nat) (k : Z) :
  (0 ≤ k)%Z → range (Z.of_nat len - k + 1) = seq 0 (S len - Z.to_nat k).
Proof. intros Hk. unfold range. f_equal. lia. Qed.

(** The slices the loop reads are the windows. *)
Lemma slices_windows (sequence : str) (k : Z) :
  (0 ≤ k)%Z →
  (λ i : nat, slice sequence (Z.of_nat i) (Z.of_nat i + k)) <$>
    range (Z.of_nat (length sequence) - k + 1)
  = windows (Z.to_nat k) sequence.
Proof.
  intros Hk. rewrite range_windows by done. unfold windows.
  apply list_fmap_ext. intros j i Hi.
  apply lookup_seq in Hi as [-> Hj]. apply slice_window; [done|lia].
Qed.

Lemma length_window (sequence : str) (k : nat) w :
  w ∈ windows k sequence → length w = k.
Proof.
  unfold windows. intros (i & -> & Hi)%list_elem_of_fmap.
  apply elem_of_seq in Hi. rewrite length_take, length_drop. lia.
Qed.

Lemma over_window (alphabet sequence : str) (k : nat) w :
  over alphabet sequence → w ∈ windows k sequence → over alphabet w.
Proof.
  unfold windows, over. intros Hs (i & -> & _)%list_elem_of_fmap.
  by apply Forall_take, Forall_drop.
Qed.

(** Every character of a sequence that is at least [k] long, [k >= 1],
    is in one of its windows. *)
Lemma elem_of_windows (sequence : str) (k : nat) c :
  0 < k → k ≤ length sequence → c ∈ sequence →
  ∃ w, w ∈ windows k sequence ∧ c ∈ w.
Proof.
  intros Hk Hlen (p & Hp)%list_elem_of_lookup.
  pose proof (lookup_lt_Some _ _ _ Hp) as Hlt.
  set (i := p `min` (length sequence - k)).
  exists (take k (drop i sequence)). split.
  - unfold windows. apply list_elem_of_fmap. exists i.
    split; [done|]. apply elem_of_seq. lia.
  - apply list_elem_of_lookup. exists (p - i).
    rewrite lookup_take_lt by lia. rewrite lookup_drop.
    by replace (i + (p - i)) with p by lia.
Qed.

(** ** The k-mers of fit *)

Lemma join_chars (s : str) : join (chars s) = s.
Proof.
  unfold join, chars. induction s as [|c s IH]; [done|].
  rewrite fmap_cons. simpl. by rewrite IH.
Qed.

Lemma chars_join (alphabet : str) (tuple : list str) :
  Forall (λ x, x ∈ chars alphabet) tuple →
  tuple = chars (join tuple) ∧ over alphabet (join tuple) ∧
  length (join tuple) = length tuple.
Proof.
  unfold over. induction 1 as [|x tuple Hx _ (IH1 & IH2 & IH3)]; [done|].
  apply list_elem_of_fmap in Hx as (c & -> & Hc). simpl.
  split; [by rewrite <- IH1|]. split; [by constructor|by rewrite IH3].
Qed.

Lemma elem_of_replicate_product (pool : list str) (n : nat) tuple :
  tuple ∈ cartesian (replicate n pool) ↔
  length tuple = n ∧ Forall (λ x, x ∈ pool) tuple.
Proof.
  rewrite elem_of_cartesian. revert tuple.
  induction n as [|n IH]; intros tuple; simpl.
  - split; [by inversion 1|]. intros [Hlen _].
    apply nil_length_inv in Hlen as ->. constructor.
  - split.
    + inversion 1 as [|x ? tuple' ? Hx Hrest]; subst.
      apply IH in Hrest as [<- Hall]. split; [done|by constructor].
    + intros [Hlen Hall]. destruct Hall as [|x tuple' Hx Hall]; [done|].
      constructor; [done|]. apply IH. split; [|done]. simpl in Hlen. lia.
Qed.

Lemma grid_size_replicate {B} (pool : list B) (n : nat) :
  grid_size (replicate n pool) = length pool ^ n.
Proof. unfold grid_size. induction n as [|n IH]; simpl; congruence. Qed.

(** The list [fit] builds for a descriptor with [k >= 0]. *)
Lemma k_mers_facts (alphabet : str) (n : nat) :
  let k_mers := join <$> cartesian (replicate n (chars alphabet)) in
  length k_mers = length alphabet ^ n ∧
  (NoDup alphabet → NoDup k_mers) ∧
  ∀ s, s ∈ k_mers ↔ length s = n ∧ over alphabet s.
Proof.
  intros k_mers. split; [|split].
  - unfold k_mers. rewrite length_fmap, length_cartesian.
    rewrite grid_size_replicate. unfold chars. by rewrite length_fmap.
  - intros Hnd. apply NoDup_fmap_2_strong.
    + intros t1 t2 [_ H1]%elem_of_replicate_product
        [_ H2]%elem_of_replicate_product Heq.
      apply (chars_join alphabet) in H1 as [-> _], H2 as [-> _].
      by rewrite Heq.
    + apply NoDup_cartesian, Forall_replicate.
      apply NoDup_fmap_2; [|done]. by intros c1 c2 [= ->].
  - intros s. unfold k_mers. rewrite list_elem_of_fmap. split.
    + intros (tuple & -> & [Hlen Hall]%elem_of_replicate_product).
      apply (chars_join alphabet) in Hall as (_ & Hover & Hlen').
      split; [lia|done].
    + intros [Hlen Hover]. exists (chars s).
      split; [by rewrite join_chars|].
      apply elem_of_replicate_product. unfold chars.
      split; [by rewrite length_fmap|].
      apply Forall_fmap. eapply Forall_impl; [exact Hover|].
      intros c Hc. simpl. apply list_elem_of_fmap. by exists c.
Qed.
(** ** KMer *)

Section KMerFacts.
Context {F : Type} `{Arith F}.
Import KMer.

Lemma init_alphabet (k : Z) (a : str) self :
  init k a = Return self →
  KMer.k self = k ∧ k_mers self = None ∧ NoDup (alphabet self) ∧
  (length (alphabet self) = 4 ∨ length (alphabet self) = 20).
Proof.
  unfold init. destruct (decide (lower a ∈ _)); [|done].
  intros [= <-]. simpl. split; [done|]. split; [done|].
  destruct (decide (lower a = _)); simpl.
  - split; [|by left]. apply (bool_decide_unpack _). by vm_compute.
  - split; [|by right]. apply (bool_decide_unpack _). by vm_compute.
Qed.

Lemma fit_run_k_mers {E L} (dataset : Data.Dataset E L) self :
  (0 ≤ k self)%Z →
  fit dataset self =
  Return (mk (k self) (alphabet self)
            (Some (join <$> cartesian (replicate (Z.to_nat (k self))
                                         (chars (alphabet self)))))).
Proof.
  intros Hk. unfold fit, product_repeat.
  rewrite decide_False by lia. simpl. by rewrite product_cartesian.
Qed.

Lemma fit_inv {E L} (dataset : Data.Dataset E L) s0 self :
  fit dataset s0 = Return self →
  (0 ≤ k self)%Z ∧ k self = k s0 ∧ alphabet self = alphabet s0 ∧
  k_mers self =
    Some (join <$> cartesian (replicate (Z.to_nat (k self))
                                (chars (alphabet self)))).
Proof.
  destruct (decide (0 ≤ k s0)%Z) as [Hk|Hk].
  - rewrite fit_run_k_mers by done. by intros [= <-].
  - unfold fit, product_repeat. by rewrite decide_True by lia.
Qed.

(** The dictionary the loop starts from. *)
Lemma counts_init_lookup (k_mers : list str) (k_mer : str) :
  (list_to_map ((λ k_mer, (k_mer, 0%Z)) <$> k_mers) : gmap str Z) !! k_mer =
  if decide (k_mer ∈ k_mers) then Some 0%Z else None.
Proof.
  induction k_mers as [|x k_mers IH].
  - by rewrite decide_False by apply not_elem_of_nil.
  - rewrite fmap_cons, list_to_map_cons.
    destruct (decide (x = k_mer)) as [->|Hne].
    + rewrite lookup_insert_eq. by rewrite decide_True by left.
    + rewrite lookup_insert_ne, IH by done.
      destruct (decide (k_mer ∈ k_mers)).
      * by rewrite decide_True by (by right).
      * rewrite decide_False; [done|].
        intros [->|?]%elem_of_cons; done.
Qed.

(** The loop over the start positions, when every slice it reads is a
    key: each key gains the number of positions it was read at. *)
Lemma count_windows_run (sequence : str) (k : Z) (indices : list nat)
    (counts : gmap str Z) :
  Forall (λ w, is_Some (counts !! w))
    ((λ i : nat, slice sequence (Z.of_nat i) (Z.of_nat i + k)) <$> indices) →
  ∃ counts',
    count_windows sequence k indices counts = Return counts' ∧
    ∀ k_mer,
      counts' !! k_mer =
      (λ c, c + Z.of_nat (length (filter (λ w, w = k_mer)
              ((λ i : nat, slice sequence (Z.of_nat i) (Z.of_nat i + k))
                 <$> indices))))%Z <$> counts !! k_mer.
Proof.
  revert counts. induction indices as [|i indices IH]; intros counts Hall.
  - exists counts. split; [done|]. intros k_mer. simpl.
    destruct (counts !! k_mer); simpl; [f_equal; lia|done].
  - rewrite fmap_cons in Hall. apply Forall_cons in Hall as [[c Hc] Hall].
    simpl count_windows. rewrite Hc.
    destruct (IH (<[slice sequence (Z.of_nat i) (Z.of_nat i + k) :=
                    (c + 1)%Z]> counts)) as (counts' & Hrun & Hcounts).
    { eapply Forall_impl; [exact Hall|]. intros w [c' Hw]. simpl.
      destruct (decide (slice sequence (Z.of_nat i) (Z.of_nat i + k) = w))
        as [<-|Hne].
      - rewrite lookup_insert_eq. by eexists.
      - rewrite lookup_insert_ne by done. by eexists. }
    exists counts'. split; [done|]. intros k_mer.
    rewrite Hcounts, fmap_cons, filter_cons.
    destruct (decide (slice sequence (Z.of_nat i) (Z.of_nat i + k) = k_mer))
      as [<-|Hne].
    + rewrite lookup_insert_eq, Hc. simpl. f_equal. lia.
    + by rewrite lookup_insert_ne by done.
Qed.

(** The loop when one of the slices it reads is not a key. *)
Lemma count_windows_unknown (sequence : str) (k : Z) (indices : list nat)
    (counts : gmap str Z) :
  Exists (λ w, counts !! w = None)
    ((λ i : nat, slice sequence (Z.of_nat i) (Z.of_nat i + k)) <$> indices) →
  count_windows sequence k indices counts = Fail (Exn KeyError).
Proof.
  revert counts. induction indices as [|i indices IH]; intros counts Hex.
  - by apply Exists_nil in Hex.
  - simpl count_windows.
    destruct (counts !! slice sequence (Z.of_nat i) (Z.of_nat i + k))
      as [c|] eqn:Hc; [|done].
    rewrite fmap_cons in Hex.
    apply Exists_cons in Hex as [Hex|Hex]; [congruence|].
    apply IH. eapply Exists_impl; [exact Hex|]. intros w Hw. simpl in *.
    rewrite lookup_insert_ne; [done|]. congruence.
Qed.

Lemma bind_Return {A B} (a : A) (f : A → outcome B) : Return a ≫= f = f a.
Proof. done. Qed.

Lemma mapM_Return {A B} (f : A → outcome B) (g : A → B) (l : list A) :
  Forall (λ x, f x = Return (g x)) l → mapM f l = Return (g <$> l).
Proof.
  induction 1 as [|x l Hx _ IH]; [done|]. simpl. by rewrite Hx, IH.
Qed.

Lemma mapM_Fail_head {A B} (f : A → outcome B) (x : A) (l : list A) e :
  f x = Fail e → mapM f (x :: l) = Fail e.
Proof. intros Hx. simpl. by rewrite Hx. Qed.

(** The counts after the loop, for a descriptor whose k-mers hold
    every window of the sequence. *)
Lemma count_windows_known (self : t) (k_mers : list str) (sequence : str) :
  (0 ≤ k self)%Z →
  Forall (λ w, w ∈ k_mers) (windows (Z.to_nat (k self)) sequence) →
  ∃ counts,
    count_windows sequence (k self)
      (range (Z.of_nat (length sequence) - k self + 1))
      (list_to_map ((λ k_mer, (k_mer, 0%Z)) <$> k_mers)) = Return counts ∧
    ∀ k_mer, k_mer ∈ k_mers →
      counts !! k_mer =
      Some (Z.of_nat (occurrences k_mer (Z.to_nat (k self)) sequence)).
Proof.
  intros Hk Hall.
  destruct (count_windows_run sequence (k self)
              (range (Z.of_nat (length sequence) - k self + 1))
              (list_to_map ((λ k_mer, (k_mer, 0%Z)) <$> k_mers)))
    as (counts & Hrun & Hcounts).
  { rewrite slices_windows by done.
    eapply Forall_impl; [exact Hall|]. intros w Hw. simpl.
    rewrite counts_init_lookup, decide_True by done. by eexists. }
  exists counts. split; [done|]. intros k_mer Hin.
  rewrite Hcounts, counts_init_lookup, decide_True by done.
  rewrite slices_windows by done. done.
Qed.

Lemma composition_run (self : t) (k_mers : list str) (sequence : str) :
  KMer.k_mers self = Some k_mers →
  (0 ≤ k self)%Z → sequence ≠ [] →
  Forall (λ w, w ∈ k_mers) (windows (Z.to_nat (k self)) sequence) →
  get_sequence_k_mer_composition self sequence =
  Return ((λ k_mer,
             fdiv (of_Z (Z.of_nat
                           (occurrences k_mer (Z.to_nat (k self)) sequence)))
                  (of_Z (Z.of_nat (length sequence)))) <$> k_mers).
Proof.
  intros Hkms Hk Hne Hall. unfold get_sequence_k_mer_composition.
  rewrite Hkms. simpl.
  destruct (count_windows_known self k_mers sequence Hk Hall)
    as (counts & -> & Hcounts). simpl.
  apply mapM_Return, Forall_forall. intros k_mer Hin.
  rewrite (Hcounts k_mer Hin).
  erewrite py_div_float; [done|done|].
  destruct sequence; simpl; [done|lia].
Qed.
End KMerFacts.

(** ** What a user of KMer sees *)

Section KMerProperties.
Context {F : Type} `{Arith F}.
Import KMer.

(** The constructor takes the sequence type in any mix of upper and
    lower case and accepts "dna" and "protein" only; every other word
    fails its assertion.  The alphabet it stores has 4 or 20 letters,
    none of them twice. *)
Theorem init_sequence_type (k : Z) (a : str) :
  (lower a = literal "dna" →
   init k a = Return (mk k (literal "ATCG") None)) ∧
  (lower a = literal "protein" →
   init k a = Return (mk k (literal "ACDEFGHIKLMNPQRSTVWY") None)) ∧
  (lower a ≠ literal "dna" → lower a ≠ literal "protein" →
   init k a =
   Fail (AssertionError
           "Choose a valid sequence type ('dna' or 'protein').")) ∧
  init k (lower a) = init k a ∧
  ∀ self, init k a = Return self →
          NoDup (alphabet self) ∧
          (length (alphabet self) = 4 ∨ length (alphabet self) = 20).
Proof.
  split; [|split; [|split; [|split]]].
  - intros Ha. unfold init. rewrite Ha. done.
  - intros Ha. unfold init. rewrite Ha. done.
  - intros H1 H2. unfold init. rewrite decide_False; [done|].
    intros [?|[?|[]%elem_of_nil]%elem_of_cons]%elem_of_cons; done.
  - assert (lower (lower a) = lower a) as Hidem; [|unfold init; by rewrite Hidem].
    unfold lower. rewrite <- list_fmap_compose. apply list_fmap_ext.
    intros _ c _. simpl. unfold lower_char.
    destruct ((65 <=? N_of_ascii c)%N && (N_of_ascii c <=? 90)%N) eqn:Hc.
    + apply andb_true_iff in Hc as [H1 H2].
      apply N.leb_le in H1, H2.
      pose proof (N_ascii_embedding (N_of_ascii c + 32)) as Hemb.
      rewrite Hemb by lia.
      replace ((65 <=? N_of_ascii c + 32)%N && (N_of_ascii c + 32 <=? 90)%N)
        with false; [done|].
      symmetry. apply andb_false_iff. right. apply N.leb_gt. lia.
    + by rewrite Hc.
  - intros self Hself. by apply init_alphabet in Hself as (_ & _ & ? & ?).
Qed.

(** [fit] on a descriptor with [k >= 0] stores the words of length [k]
    over the alphabet: each of them once when no letter of the alphabet
    is repeated, [len(alphabet) ** k] in all, in the order of the
    Cartesian product of [k] copies of the alphabet.  A negative [k] is
    refused with [ValueError] and leaves the descriptor unfitted. *)
Theorem fit_k_mers {E L} (dataset : Data.Dataset E L) (self : t) :
  ((0 ≤ k self)%Z →
   ∃ k_mers,
     fit dataset self = Return (mk (k self) (alphabet self) (Some k_mers)) ∧
     k_mers = join <$> cartesian (replicate (Z.to_nat (k self))
                                    (chars (alphabet self))) ∧
     length k_mers = length (alphabet self) ^ Z.to_nat (k self) ∧
     (NoDup (alphabet self) → NoDup k_mers) ∧
     ∀ s, s ∈ k_mers ↔
          length s = Z.to_nat (k self) ∧ over (alphabet self) s) ∧
  ((k self < 0)%Z → fit dataset self = Fail (Exn ValueError)).
Proof.
  split.
  - intros Hk. eexists. split; [by apply fit_run_k_mers|].
    split; [done|]. apply k_mers_facts.
  - intros Hk. unfold fit, product_repeat. by rewrite decide_True.
Qed.

(** The composition of a sequence that is not empty and is written in
    the alphabet of a fitted descriptor: for each k-mer, in the order of
    [k_mers], the number of start positions at which the sequence reads
    that k-mer, divided by the length of the sequence (not by the number
    of windows). *)
Theorem composition_of_sequence {E L} (dataset : Data.Dataset E L)
    (s0 self : t) (sequence : str) :
  fit dataset s0 = Return self →
  sequence ≠ [] → over (alphabet self) sequence →
  ∃ k_mers,
    KMer.k_mers self = Some k_mers ∧
    get_sequence_k_mer_composition self sequence =
    Return ((λ k_mer,
               fdiv (of_Z (Z.of_nat
                      (occurrences k_mer (Z.to_nat (k self)) sequence)))
                    (of_Z (Z.of_nat (length sequence)))) <$> k_mers).
Proof.
  intros (Hk & _ & _ & Hkms)%fit_inv Hne Hover.
  eexists. split; [exact Hkms|].
  apply composition_run; [done..|].
  apply Forall_forall. intros w Hw.
  apply k_mers_facts. split; [by apply length_window in Hw|].
  by apply (over_window _ sequence (Z.to_nat (k self))).
Qed.

(** A sequence of at least [k] characters, [k >= 1], one of which is not
    in the alphabet (a lower-case letter, an N in DNA) is refused with
    [KeyError]. *)
Theorem composition_unknown_character {E L} (dataset : Data.Dataset E L)
    (s0 self : t) (sequence : str) (c : ascii) :
  fit dataset s0 = Return self →
  (1 ≤ k self)%Z → (k self ≤ Z.of_nat (length sequence))%Z →
  c ∈ sequence → c ∉ alphabet self →
  get_sequence_k_mer_composition (F:=F) self sequence = Fail (Exn KeyError).
Proof.
  intros (Hk & _ & _ & Hkms)%fit_inv Hk1 Hlen Hc Hnot.
  unfold get_sequence_k_mer_composition. rewrite Hkms. simpl.
  rewrite count_windows_unknown; [done|].
  rewrite slices_windows by done.
  destruct (elem_of_windows sequence (Z.to_nat (k self)) c)
    as (w & Hw & Hcw); [lia|lia|done|].
  apply Exists_exists. exists w. split; [done|].
  rewrite counts_init_lookup, decide_False; [done|].
  intros [_ Hover]%k_mers_facts. unfold over in Hover.
  rewrite Forall_forall in Hover. by apply Hnot, Hover.
Qed.

(** A sequence that is shorter than [k] and not empty has no window:
    its composition is zero for every k-mer, whatever its characters
    are. *)
Theorem composition_short_sequence (self : t) (k_mers : list str)
    (sequence : str) :
  KMer.k_mers self = Some k_mers →
  sequence ≠ [] → (Z.of_nat (length sequence) < k self)%Z →
  get_sequence_k_mer_composition self sequence =
  Return (replicate (length k_mers)
            (fdiv (of_Z 0) (of_Z (Z.of_nat (length sequence))))).
Proof.
  intros Hkms Hne Hlen.
  assert (windows (Z.to_nat (k self)) sequence = []) as Hw.
  { unfold windows. by replace (S (length sequence) - _) with 0 by lia. }
  rewrite (composition_run self k_mers) by (rewrite ?Hw; done || lia).
  f_equal. unfold occurrences. rewrite Hw. simpl. clear.
  induction k_mers as [|k_mer k_mers IH]; [done|].
  rewrite fmap_cons. simpl. by rewrite IH.
Qed.

(** The empty sequence is refused with [ZeroDivisionError] by every
    descriptor that the constructor and [fit] made. *)
Theorem composition_empty_sequence {E L} (dataset : Data.Dataset E L)
    (k : Z) (a : str) (s0 self : t) :
  init k a = Return s0 → fit dataset s0 = Return self →
  get_sequence_k_mer_composition (F:=F) self [] =
  Fail (Exn ZeroDivisionError).
Proof.
  intros (_ & _ & _ & Hsize)%init_alphabet Hfit.
  pose proof Hfit as (Hk & _ & Ha & Hkms)%fit_inv.
  pose proof (k_mers_facts (alphabet self) (Z.to_nat (KMer.k self)))
    as (Hlen & _ & Hin).
  destruct (count_windows_known self
              (join <$> cartesian (replicate (Z.to_nat (KMer.k self))
                                     (chars (alphabet self)))) [] Hk)
    as (counts & Hrun & Hcounts).
  { apply Forall_forall. intros w Hw. apply Hin.
    split; [by apply length_window in Hw|].
    apply (over_window _ [] (Z.to_nat (KMer.k self))); [constructor|done]. }
  unfold get_sequence_k_mer_composition. rewrite Hkms.
  rewrite bind_Return, Hrun, bind_Return.
  destruct (join <$> cartesian _) as [|k_mer k_mers] eqn:Hlist.
  { exfalso. simpl in Hlen. rewrite Ha in Hlen.
    assert (0 < length (alphabet s0) ^ Z.to_nat (KMer.k self)); [|lia].
    apply Nat.neq_0_lt_0, Nat.pow_nonzero. lia. }
  apply mapM_Fail_head. rewrite Hcounts by left. done.
Qed.
End KMerProperties.

(** ** transform, and the constructor of Dataset *)

Section TransformProperties.
Context {F : Type} `{Arith F}.
Import KMer.

Lemma first_column_run {E} (X : list (list E)) :
  X ≠ [] → Forall (λ row, row ≠ []) X →
  ∃ column, first_column X = Return column ∧
            Forall2 (λ row x, head row = Some x) X column.
Proof.
  intros Hne Hrows. unfold first_column. rewrite decide_False.
  - clear Hne. induction Hrows as [|row X Hrow _ (column & IH1 & IH2)].
    + by exists [].
    + destruct row as [|x row]; [done|]. exists (x :: column).
      simpl. rewrite IH1. split; [done|]. by constructor.
  - destruct Hrows as [|[|x row] X Hrow _]; done.
Qed.

Lemma mapM_Forall2 {A B} (f : A → outcome B) (l : list A) :
  Forall (λ x, ∃ b, f x = Return b) l →
  ∃ k, mapM f l = Return k ∧ Forall2 (λ x b, f x = Return b) l k.
Proof.
  induction 1 as [|x l [b Hx] _ (k & IH1 & IH2)].
  - by exists [].
  - exists (b :: k). simpl. rewrite Hx, IH1. split; [done|].
    by constructor.
Qed.

(** [transform] before [fit], on a dataset with at least one sequence:
    [TypeError], because the k-mers are still [None]; the failure of
    iterating over [None], not a message about fitting. *)
Theorem transform_before_fit {L} (k : Z) (a : str) (self : t)
    (dataset : Data.Dataset str L) :
  init k a = Return self →
  Data.X dataset ≠ [] → Forall (λ row, row ≠ []) (Data.X dataset) →
  transform (F:=F) dataset self = Fail (Exn TypeError).
Proof.
  intros (_ & Hnone & _)%init_alphabet Hne Hrows.
  destruct (first_column_run _ Hne Hrows) as (column & Hcol & Hheads).
  unfold transform. rewrite Hcol, bind_Return.
  destruct Hheads as [|row x X column _ _]; [done|].
  erewrite mapM_Fail_head; [done|].
  unfold get_sequence_k_mer_composition. by rewrite Hnone.
Qed.

(** [fit_transform] on a dataset whose first column holds sequences
    that are not empty and are written in the alphabet: it returns a
    dataset with one row for each sequence and one column for each
    k-mer, [len(alphabet) ** k] of them; row [i] is the composition
    of sequence [i]; the feature names are the k-mers; the labels are
    those of the input, under its label name, or under "y" when the
    input has labels and no name for them. *)
Theorem fit_transform_dataset {L} (s0 : t) (dataset : Data.Dataset str L) :
  (0 ≤ k s0)%Z →
  Data.X dataset ≠ [] →
  Forall (λ row, ∃ sequence, head row = Some sequence ∧ sequence ≠ [] ∧
                             over (alphabet s0) sequence)
         (Data.X dataset) →
  ∃ self k_mers d,
    fit_transform (F:=F) dataset s0 = Return (self, d) ∧
    fit dataset s0 = Return self ∧
    KMer.k_mers self = Some k_mers ∧
    Data.features d = k_mers ∧
    Data.y d = Data.y dataset ∧
    Data.label d = match Data.y dataset, Data.label dataset with
                   | Some _, None => Some (literal "y")
                   | _, label => label
                   end ∧
    Data.get_shape d =
      (length (Data.X dataset), length (alphabet s0) ^ Z.to_nat (k s0)) ∧
    Forall (λ row, length row = length (alphabet s0) ^ Z.to_nat (k s0))
           (Data.X d) ∧
    Forall2 (λ row composition,
               ∃ sequence,
                 head row = Some sequence ∧
                 get_sequence_k_mer_composition self sequence =
                 Return composition)
            (Data.X dataset) (Data.X d).
Proof.
  intros Hk Hne Hrows.
  pose proof (fit_run_k_mers dataset s0 Hk) as Hfit.
  set (k_mers := join <$> cartesian (replicate (Z.to_nat (k s0))
                                       (chars (alphabet s0)))) in *.
  set (self := mk (k s0) (alphabet s0) (Some k_mers)) in *.
  pose proof (k_mers_facts (alphabet s0) (Z.to_nat (k s0)))
    as (Hlen & _ & Hin). fold k_mers in Hlen, Hin.
  destruct (first_column_run (Data.X dataset) Hne) as (column & Hcol & Hheads).
  { eapply Forall_impl; [exact Hrows|].
    intros row (sequence & Hhead & _). by destruct row. }
  assert (Forall (λ sequence,
            ∃ composition,
              get_sequence_k_mer_composition (F:=F) self sequence =
              Return composition) column) as Hcomp.
  { apply Forall_forall. intros sequence Hs.
    apply list_elem_of_lookup in Hs as [i Hi].
    destruct (Forall2_lookup_r _ _ _ _ _ Hheads Hi) as (row & Hrow & Hhead).
    rewrite Forall_lookup in Hrows.
    destruct (Hrows i row Hrow) as (sequence' & Hhead' & Hne' & Hover).
    assert (sequence' = sequence) as -> by congruence.
    eexists. apply (composition_run self k_mers); [done..|].
    apply Forall_forall. intros w Hw. apply Hin.
    split; [by apply length_window in Hw|].
    by apply (over_window _ sequence (Z.to_nat (k s0))). }
  destruct (mapM_Forall2 _ _ Hcomp) as (rows & Hrun & Hrows').
  assert (Forall (λ row, length row = length (alphabet s0) ^ Z.to_nat (k s0))
            rows) as Hwidth.
  { apply Forall_forall. intros row Hrow.
    apply list_elem_of_lookup in Hrow as [i Hi].
    destruct (Forall2_lookup_r _ _ _ _ _ Hrows' Hi)
      as (sequence & Hs & Hrow).
    destruct (Forall2_lookup_r _ _ _ _ _ Hheads Hs) as (r & Hr & Hhead).
    rewrite Forall_lookup in Hrows.
    destruct (Hrows i r Hr) as (sequence' & Hhead' & Hne' & Hover).
    assert (sequence' = sequence) as -> by congruence.
    rewrite (composition_run self k_mers) in Hrow; [|done..|].
    - injection Hrow as <-. by rewrite length_fmap.
    - apply Forall_forall. intros w Hw. apply Hin.
      split; [by apply length_window in Hw|].
      by apply (over_window _ sequence (Z.to_nat (k s0))). }
  exists self, k_mers,
    (Data.mk rows (Data.y dataset) k_mers
       match Data.y dataset, Data.label dataset with
       | Some _, None => Some (literal "y")
       | _, label => label
       end).
  split.
  { unfold fit_transform. rewrite Hfit, bind_Return.
    unfold transform. rewrite Hcol, bind_Return, Hrun, bind_Return.
    simpl. by destruct (Data.y dataset), (Data.label dataset). }
  split; [done|]. split; [done|]. split; [done|]. split; [done|].
  split; [done|]. simpl. split; [|split; [done|]].
  - unfold Data.get_shape. simpl. f_equal.
    + apply Forall2_length in Hheads, Hrows'. congruence.
    + destruct Hwidth as [|row rows' Hrow _]; [|done].
      apply Forall2_length in Hheads, Hrows'.
      destruct (Data.X dataset); [done|]. simpl in *. congruence.
  - clear -Hheads Hrows'. revert rows Hrows'.
    induction Hheads as [|row s X column Hhead _ IH]; intros rows Hrows'.
    + inversion Hrows'. constructor.
    + inversion Hrows' as [|? composition ? rows' Hc Hrest]; subst.
      constructor; [by exists s|by apply IH].
Qed.
End TransformProperties.

Section DatasetProperties.
Context {E L : Type}.

Lemma literal_inj : Inj (=) (=) literal.
Proof.
  intros s1 s2 Heq. unfold literal in Heq.
  rewrite <- (String.string_of_list_ascii_of_string s1).
  rewrite <- (String.string_of_list_ascii_of_string s2). by rewrite Heq.
Qed.

(** A dataset made without feature names gets the names "0", "1", ...:
    one for each column, the decimal numeral of its position, no two of
    them equal. *)
Theorem dataset_default_feature_names (X : list (list E))
    (y : option (list L)) (label : option str) :
  ∃ d, Data.init (Some X) y None label = Return d ∧
       Data.X d = X ∧ Data.y d = y ∧
       length (Data.features d) = ncols X ∧
       NoDup (Data.features d) ∧
       ∀ i, i < ncols X → Data.features d !! i = Some (literal (pretty i)).
Proof.
  eexists. split; [done|]. simpl. split; [done|]. split; [done|].
  unfold range. rewrite Nat2Z.id. split; [|split].
  - by rewrite length_fmap, length_seq.
  - apply NoDup_fmap_2; [|apply NoDup_seq].
    intros i j Hij. by apply literal_inj, (inj pretty) in Hij.
  - intros i Hi. rewrite list_lookup_fmap, lookup_seq_lt by done. done.
Qed.

(** The constructor refuses a missing [X] with [ValueError]; otherwise
    it returns, keeps [X], [y] and the names it was given, and a
    dataset that has labels always has a name for them: "y" when none
    was given. *)
Theorem dataset_label_name (X : option (list (list E)))
    (y : option (list L)) (features : option (list str))
    (label : option str) :
  match X with
  | None => Data.init X y features label = Fail (Exn ValueError)
  | Some X' =>
      ∃ d, Data.init X y features label = Return d ∧
           Data.X d = X' ∧ Data.y d = y ∧
           (∀ names, features = Some names → Data.features d = names) ∧
           (Data.has_label d → is_Some (Data.label d)) ∧
           (is_Some label → Data.label d = label) ∧
           (label = None →
            Data.label d = if Data.has_label d then Some (literal "y")
                           else None)
  end.
Proof.
  destruct X as [X'|]; [|done].
  eexists. split; [done|]. unfold Data.has_label. simpl.
  split; [done|]. split; [done|]. split; [by intros ? ->|].
  destruct y, label; simpl; repeat split; try done; by intros [].
Qed.
End DatasetProperties.

(** ** From sequences to the estimator *)

Section Pipeline.
Context {F : Type} `{Arith F} `{Externals F}.

(** [transform] in closed form, for a fitted descriptor and a column of
    sequences whose windows are all k-mers. *)
Lemma transform_run {L} (self : KMer.t) (k_mers : list str)
    (dataset : Data.Dataset str L) (column : list str) :
  KMer.k_mers self = Some k_mers → (0 ≤ KMer.k self)%Z →
  Data.X dataset ≠ [] →
  Forall2 (λ row sequence, head row = Some sequence)
          (Data.X dataset) column →
  Forall (λ sequence,
            sequence ≠ [] ∧
            Forall (λ w, w ∈ k_mers)
                   (windows (Z.to_nat (KMer.k self)) sequence)) column →
  KMer.transform dataset self =
  Return (Data.mk
            ((λ sequence,
                (λ k_mer,
                   fdiv (of_Z (Z.of_nat
                          (occurrences k_mer (Z.to_nat (KMer.k self))
                                       sequence)))
                        (of_Z (Z.of_nat (length sequence)))) <$> k_mers)
               <$> column)
            (Data.y dataset) k_mers
            match Data.y dataset, Data.label dataset with
            | Some _, None => Some (literal "y")
            | _, label => label
            end).
Proof.
  intros Hkms Hk Hne Hheads Hcolumn.
  destruct (first_column_run (Data.X dataset) Hne)
    as (column' & Hcol & Hheads').
  { clear -Hheads. induction Hheads as [|[|x row] s ? ? Hhead]; by constructor. }
  assert (column' = column) as ->.
  { clear -Hheads Hheads'. revert column' Hheads'.
    induction Hheads as [|row s X column Hhead _ IH]; intros column' Hheads'.
    - by inversion Hheads'.
    - inversion Hheads' as [|? s' ? column'' Hhead' Hrest]; subst.
      f_equal; [congruence|by apply IH]. }
  unfold KMer.transform. rewrite Hcol, bind_Return.
  erewrite mapM_Return; [|].
  - rewrite bind_Return. unfold Data.init. rewrite Hkms.
    by destruct (Data.y dataset), (Data.label dataset).
  - eapply Forall_impl; [exact Hcolumn|]. intros sequence [Hs Hw]. simpl.
    by apply composition_run.
Qed.

(** The dataset [fit_transform] returns for labelled sequences is one
    [LogisticRegression.fit] accepts: it has a row for each label and
    rows of one length, so that [fit], with numeric hyper-parameters,
    returns on it. *)
Theorem fit_transform_feeds_fit (s0 : KMer.t) (dataset : Data.Dataset str F)
    (labels : list F) (lr : LogisticRegression.t F) (a l2 : F) (n : Z) :
  (0 ≤ KMer.k s0)%Z →
  Data.X dataset ≠ [] →
  Forall (λ row, ∃ sequence, head row = Some sequence ∧ sequence ≠ [] ∧
                             over (KMer.alphabet s0) sequence)
         (Data.X dataset) →
  Data.y dataset = Some labels →
  length labels = length (Data.X dataset) →
  as_float (LogisticRegression.alpha lr) = Ok a →
  as_float (LogisticRegression.l2_penalty lr) = Ok l2 →
  LogisticRegression.max_iter lr = PInt n →
  ∃ self d lr',
    KMer.fit_transform dataset s0 = Return (self, d) ∧
    valid_dataset (core_of d) labels ∧
    LogisticRegression.fit (core_of d) lr = (Ok tt, lr').
Proof.
  intros Hk Hne Hrows Hy Hlen Ha Hl2 Hn.
  pose proof (fit_run_k_mers dataset s0 Hk) as Hfit.
  set (k_mers := join <$> cartesian (replicate (Z.to_nat (KMer.k s0))
                                       (chars (KMer.alphabet s0)))) in *.
  set (self := KMer.mk (KMer.k s0) (KMer.alphabet s0) (Some k_mers)) in *.
  pose proof (k_mers_facts (KMer.alphabet s0) (Z.to_nat (KMer.k s0)))
    as (_ & _ & Hin). fold k_mers in Hin.
  assert (∃ column,
            Forall2 (λ row sequence, head row = Some sequence)
                    (Data.X dataset) column ∧
            Forall (λ sequence,
                      sequence ≠ [] ∧
                      Forall (λ w, w ∈ k_mers)
                             (windows (Z.to_nat (KMer.k s0)) sequence))
                   column) as (column & Hheads & Hcolumn).
  { clear -Hrows Hin.
    induction Hrows as [|row X (s & Hhead & Hs & Hover) _ (column & IH1 & IH2)].
    - by exists [].
    - exists (s :: column). split; constructor; try done.
      split; [done|]. apply Forall_forall. intros w Hw. apply Hin.
      split; [by apply length_window in Hw|].
      by apply (over_window _ s (Z.to_nat (KMer.k s0))). }
  pose proof (transform_run self k_mers dataset column eq_refl Hk Hne
                Hheads Hcolumn) as Hrun.
  eexists self, _, _. split.
  { unfold KMer.fit_transform. rewrite Hfit, bind_Return, Hrun. done. }
  assert (valid_dataset
            (core_of
               (Data.mk
                  ((λ sequence,
                      (λ k_mer,
                         fdiv (of_Z (Z.of_nat
                                (occurrences k_mer (Z.to_nat (KMer.k self))
                                             sequence)))
                              (of_Z (Z.of_nat (length sequence)))) <$> k_mers)
                     <$> column)
                  (Data.y dataset) k_mers
                  match Data.y dataset, Data.label dataset with
                  | Some _, None => Some (literal "y")
                  | _, label => label
                  end)) labels) as Hvalid.
  { unfold valid_dataset, core_of. simpl.
    apply Forall2_length in Hheads.
    split; [done|]. rewrite length_fmap.
    split; [congruence|]. split.
    - destruct (Data.X dataset); [done|]. rewrite <- Hheads. simpl. lia.
    - apply Forall_forall. intros row (s & -> & _)%list_elem_of_fmap.
      destruct column as [|s' column]; [|unfold ncols; simpl].
      + destruct (Data.X dataset); done.
      + by rewrite !length_fmap. }
  split; [exact Hvalid|].
  by apply (fit_run _ labels lr a l2).
Qed.
End Pipeline.

(** ** The counting loop *)

Section CountingLoop.
Import KMer.

Lemma total_increment (counts : gmap str Z) (key : str) (c : Z) :
  counts !! key = Some c →
  total (<[key := (c + 1)%Z]> counts) = (total counts + 1)%Z.
Proof.
  intros Hc. unfold total.
  rewrite (map_fold_delete_L _ _ key c counts); [|intros; lia|done].
  rewrite <- (insert_delete_eq counts).
  rewrite map_fold_insert_L; [lia|intros; lia|apply lookup_delete_eq].
Qed.

Lemma total_zero (counts : gmap str Z) :
  (∀ key c, counts !! key = Some c → c = 0%Z) → total counts = 0%Z.
Proof.
  unfold total.
  apply (map_fold_weak_ind
           (λ sum m, (∀ key c, m !! key = Some c → c = 0%Z) → sum = 0%Z)).
  - done.
  - intros key c m sum Hfresh IH Hzero.
    rewrite (Hzero key c) by apply lookup_insert_eq.
    rewrite IH; [done|]. intros key' c' Hkey'. apply (Hzero key').
    rewrite lookup_insert_ne; [done|]. congruence.
Qed.

(** Whenever the loop of [_get_sequence_k_mer_composition] completes,
    it has added one to the dictionary for each start position and has
    added no key: the counts sum up to their sum before plus the number
    of positions.  Counted from zero for a sequence of at least [k]
    characters, they sum up to [len(sequence) - k + 1], so that the
    composition adds up to that number over [len(sequence)], not to
    one. *)
Theorem count_windows_total (sequence : str) (k : Z) (indices : list nat)
    (counts counts' : gmap str Z) :
  count_windows sequence k indices counts = Return counts' →
  (∀ key, is_Some (counts' !! key) ↔ is_Some (counts !! key)) ∧
  total counts' = (total counts + Z.of_nat (length indices))%Z ∧
  ∀ k_mers,
    counts = list_to_map ((λ k_mer, (k_mer, 0%Z)) <$> k_mers) →
    indices = range (Z.of_nat (length sequence) - k + 1) →
    (0 ≤ k ≤ Z.of_nat (length sequence))%Z →
    total counts' = (Z.of_nat (length sequence) - k + 1)%Z.
Proof.
  intros Hrun.
  assert ((∀ key, is_Some (counts' !! key) ↔ is_Some (counts !! key)) ∧
          total counts' = (total counts + Z.of_nat (length indices))%Z)
    as [Hkeys Htotal].
  { revert counts Hrun.
    induction indices as [|i indices IH]; intros counts Hrun.
    - injection Hrun as <-. split; [done|]. simpl. lia.
    - simpl in Hrun.
      destruct (counts !! slice sequence (Z.of_nat i) (Z.of_nat i + k))
        as [c|] eqn:Hc; [|done].
      apply IH in Hrun as [Hkeys Htotal]. split.
      + intros key. rewrite Hkeys.
        destruct (decide (slice sequence (Z.of_nat i) (Z.of_nat i + k) = key))
          as [<-|Hne].
        * rewrite lookup_insert_eq, Hc. by split; eexists.
        * by rewrite lookup_insert_ne.
      + rewrite Htotal, total_increment by done. simpl length. lia. }
  split; [done|]. split; [done|].
  intros k_mers -> -> Hk. rewrite Htotal, total_zero.
  - unfold range. rewrite length_seq. lia.
  - intros key c. rewrite counts_init_lookup.
    destruct (decide _); congruence.
Qed.
End CountingLoop.

(** ** The statements at concrete inputs *)

Section Examples.
Import Exact B64 Sampler LogisticRegression Example.

Lemma valid_example : valid_dataset dataset labels.
Proof. repeat split; [vm_compute; lia|repeat constructor]. Qed.

Lemma valid_wide : valid_dataset wide [num 1; num 0].
Proof. repeat split; [vm_compute; lia|repeat constructor]. Qed.


(** [cross_validate] with [cv=5], as the script of the source calls it,
    returns lists of length one. *)
Lemma cross_validate_single_fold_witness :
  (1 ≤ 5)%Z ∧
  ∃ v w',
    cross_validate dataset None 5 test_size world = (Ok v, w') ∧
    ∃ d, v = PRef (length (heap world)) ∧
         heap w' !! length (heap world) = Some d ∧
         entry_length "seeds" d = Some 1 ∧
         entry_length "train" d = Some 1 ∧
         entry_length "test" d = Some 1.
Proof.
  split; [lia|]. eexists _, _. split; [vm_compute; reflexivity|].
  eapply (cross_validate_single_fold dataset None 5 test_size world);
    [lia|vm_compute; reflexivity].
Defined.

(** A run with the scoring function that returns the score it is given:
    the model scores the test partition differently from the train
    partition, and the value stored under "test" is the score on the
    train partition. *)
Lemma cross_validate_scoring_run_witness :
  ∃ seed g1 train test g2 m1 s1 m2 s2 m3 s_test,
    randint 0 1000 (rng world) = (Ok seed, g1) ∧
    train_test_split dataset test_size seed g1 = (Ok (train, test), g2) ∧
    model_fit train (model world) = (Ok tt, m1) ∧
    model_score train m1 = (Ok s1, m2) ∧
    model_score train m2 = (Ok s2, m3) ∧
    (model_score test m3).1 = Ok s_test ∧
    s_test ≠ s2 ∧
    cross_validate dataset (Some identity_scoring) 5 test_size world =
    (Ok (PRef 0),
     mkWorld m3 g2 [scores_dict [PInt seed] [PFloat s1] [PFloat s2]]).
Proof.
  do 11 eexists.
  split; [vm_compute; reflexivity|].
  split; [vm_compute; reflexivity|].
  split; [vm_compute; reflexivity|].
  split; [vm_compute; reflexivity|].
  split; [vm_compute; reflexivity|].
  split; [vm_compute; reflexivity|].
  split; [by vm_compute|].
  eapply (cross_validate_scoring_run dataset identity_scoring 5 test_size
            world);
    first [lia | vm_compute; reflexivity].
Defined.


Lemma grid_search_unknown_parameter_witness :
  (∃ k, k ∈ unknown_grid.*1 ∧ ¬ hasattr (model world) k) ∧
  ∃ parameter before after,
    unknown_grid.*1 = before ++ parameter :: after ∧
    Forall (λ k, hasattr (model world) k) before ∧
    ¬ hasattr (model world) parameter ∧
    grid_search dataset unknown_grid None 5 test_size world =
    (Raise (AttributeError
              ("Model " +:+ model_str (model world) +:+
               " does not have parameter " +:+ parameter +:+ ".")),
     world).
Proof.
  assert (∃ k, k ∈ unknown_grid.*1 ∧ ¬ hasattr (model world) k) as Hk.
  { exists "penalty". split; [|by vm_compute].
    apply (bool_decide_unpack _). by vm_compute. }
  split; [done|].
  by apply (grid_search_unknown_parameter dataset unknown_grid None 5
              test_size world).
Defined.

Lemma grid_search_leaves_last_combination_witness :
  NoDup grid.*1 ∧
  Forall (λ kv, kv.2 ≠ []) grid ∧
  ∃ records w',
    grid_search dataset grid None 5 test_size world = (Ok records, w') ∧
    (∃ c, last (cartesian grid.*2) = Some c ∧
          Forall2 (λ kv v, last kv.2 = Some v) grid c) ∧
    Forall (λ kv, getattr (model w') kv.1 = last kv.2) grid.
Proof.
  assert (NoDup grid.*1) as Hnd
    by (apply (bool_decide_unpack _); by vm_compute).
  assert (Forall (λ kv : string * list (pyval float), kv.2 ≠ []) grid)
    as Hne by (by repeat constructor).
  assert (∀ k, k ∈ grid.*1 → k ∈ ["l2_penalty"; "alpha"; "max_iter"])
    as Hkeys.
  { intros k Hk. vm_compute in Hk.
    repeat (apply elem_of_cons in Hk as [->|Hk];
            [apply (bool_decide_unpack _); by vm_compute|]).
    by apply elem_of_nil in Hk. }
  split; [done|]. split; [done|].
  eexists _, _. split; [vm_compute; reflexivity|].
  eapply (grid_search_leaves_last_combination dataset grid None 5 test_size
            world); [done|done| | | | |vm_compute; reflexivity].
  - intros k v m Hk. apply lr_getattr_setattr. by apply Hkeys.
  - intros k k' v m Hk Hk'. apply lr_getattr_setattr_ne; by apply Hkeys.
  - intros k t m Hk. apply lr_getattr_fit. by apply Hkeys.
  - done.
Defined.

(** With the default hyper-parameters on two samples with a feature of
    the order of a hundred. *)
Lemma fit_iterations_witness :
  max_iter default_estimator = PInt 1000 ∧
  valid_dataset wide [num 1; num 0] ∧
  as_float (alpha default_estimator) = Ok milli ∧
  as_float (l2_penalty default_estimator) = Ok (num 1) ∧
  (∀ j, 1000 ≤ j →
     cost_history (fit wide default_estimator).2 !! j =
     cost_history default_estimator !! j) ∧
  ∃ k self',
    fit wide default_estimator = (Ok tt, self') ∧
    for_each (seq 0 k) (gradient_step wide (length (X wide)))
      (set_theta_zero (Some f0)
         (set_theta (Some (np_zeros (ncols (X wide)))) default_estimator))
      = (Ok tt, self') ∧
    k ≤ 1000 ∧
    (∀ j, k ≤ j →
       cost_history self' !! j = cost_history default_estimator !! j) ∧
    size (cost_history self') ≤ size (cost_history default_estimator) + 1000 ∧
    (∀ i, 0 < i → i < k → converged i (cost_history self') → S i = k) ∧
    (k < 1000 → 1 < k ∧ converged (k - 1) (cost_history self')).
Proof.
  assert (max_iter default_estimator = PInt 1000) as Hn by reflexivity.
  assert (as_float (alpha default_estimator) = Ok milli) as Ha
    by reflexivity.
  assert (as_float (l2_penalty default_estimator) = Ok (num 1)) as Hl2
    by reflexivity.
  destruct (fit_iterations wide default_estimator 1000 Hn) as [Hframe Hrun].
  split; [done|]. split; [apply valid_wide|]. split; [done|].
  split; [done|]. split; [exact Hframe|].
  exact (Hrun [num 1; num 0] milli (num 1) valid_wide Ha Hl2).
Defined.

Lemma predict_after_fit_witness :
  valid_dataset dataset labels ∧
  ∃ self' th b predictions,
    fit dataset estimator = (Ok tt, self') ∧
    theta self' = Some th ∧ theta_zero self' = Some b ∧
    predict dataset self' = Ok predictions ∧
    predictions =
      map (λ z, if fge (sigmoid_function z) c_half then f1 else f0)
          (map (λ s, fadd s b) (map (λ row, inner row th) (X dataset))) ∧
    length predictions = length (X dataset) ∧
    Forall (λ p, p = f0 ∨ p = f1) predictions.
Proof.
  assert (as_float (alpha estimator) = Ok milli) as Ha by reflexivity.
  assert (as_float (l2_penalty estimator) = Ok (num 1)) as Hl2
    by reflexivity.
  split; [apply valid_example|].
  apply (predict_after_fit dataset labels estimator milli (num 1) 3
           valid_example Ha Hl2 eq_refl).
Defined.

Lemma predict_unfit_witness :
  concat (X far) ≠ [] ∧
  predict far (init (PInt 1) (PFloat milli) (PInt 1000)) = Raise TypeError ∧
  score far (init (PInt 1) (PFloat milli) (PInt 1000)) = Raise TypeError.
Proof.
  assert (concat (X far) ≠ []) as Hne by done.
  split; [done|].
  by apply (predict_unfit far (PInt 1) (PFloat milli) (PInt 1000)).
Defined.

(** C7, as the claim states it, fails: on the estimator of the default
    arguments, never fit, [predict] and [score] end with [TypeError],
    which is not the "not fitted" condition. *)
Lemma predict_unfit_counterexample :
  predict far default_estimator = Raise TypeError ∧
  predict far default_estimator ≠ Raise NotFittedError ∧
  score far default_estimator ≠ Raise NotFittedError.
Proof. by vm_compute. Qed.


End Examples.

(** ** The further properties at concrete inputs *)

Section MoreExamples.
Import Exact B64 Sampler LogisticRegression Example SequenceExample.

Lemma cross_validate_default_run_witness :
  ∃ seed g1 train test g2 m1 s1 m2 s2 m3,
    randint 0 1000 (rng world) = (Ok seed, g1) ∧
    train_test_split dataset test_size seed g1 = (Ok (train, test), g2) ∧
    model_fit train (model world) = (Ok tt, m1) ∧
    model_score train m1 = (Ok s1, m2) ∧
    model_score test m2 = (Ok s2, m3) ∧
    cross_validate dataset None 5 test_size world =
    (Ok (PRef 0),
     mkWorld m3 g2 [scores_dict [PInt seed] [PFloat s1] [PFloat s2]]).
Proof.
  do 10 eexists.
  split; [vm_compute; reflexivity|].
  split; [vm_compute; reflexivity|].
  split; [vm_compute; reflexivity|].
  split; [vm_compute; reflexivity|].
  split; [vm_compute; reflexivity|].
  eapply (cross_validate_default_run dataset 5 test_size world);
    first [lia | vm_compute; reflexivity].
Defined.

Lemma cross_validate_no_fold_witness :
  (0 ≤ 0)%Z ∧
  cross_validate dataset None 0 test_size world =
  (Ok PNone, mkWorld estimator 42%Z [scores_dict [] [] []]).
Proof.
  split; [lia|].
  apply (cross_validate_no_fold dataset None 0 test_size world). lia.
Defined.

Lemma cross_validate_folds_ignored_witness :
  (1 ≤ 5)%Z ∧
  cross_validate dataset None 5 test_size world =
  cross_validate dataset None 1 test_size world.
Proof.
  split; [lia|].
  apply (cross_validate_folds_ignored dataset None 5 test_size world). lia.
Defined.

Lemma grid_search_empty_value_list_witness :
  Forall (λ k, hasattr (model world) k) ["l2_penalty"; "max_iter"] ∧
  grid_search dataset
    [("l2_penalty", [PInt 1; PInt 10]); ("max_iter", [])]
    None 3 test_size world = (Ok [], world).
Proof.
  assert (Forall (λ k, hasattr (model world) k) ["l2_penalty"; "max_iter"])
    as Hattr by (repeat constructor).
  split; [done|].
  apply (grid_search_empty_value_list dataset
           [("l2_penalty", [PInt 1; PInt 10]); ("max_iter", [])]
           None 3 test_size world Hattr).
  right. left.
Defined.

Lemma grid_search_no_fold_witness :
  Forall (λ k, hasattr (model world) k) grid.*1 ∧
  grid_search dataset grid None 0 test_size world =
  (Raise TypeError,
   mkWorld (set_max_iter (PInt 1) (set_l2_penalty (PInt 1) estimator)) 42%Z
     [[("l2_penalty", PInt 1); ("max_iter", PInt 1)];
      scores_dict [] [] []]).
Proof.
  assert (Forall (λ k, hasattr (model world) k) grid.*1)
    as Hattr by (repeat constructor).
  split; [done|].
  apply (grid_search_no_fold dataset grid None 0 test_size world
           [PInt 1; PInt 1] Hattr); [repeat constructor|lia].
Defined.

Lemma fit_without_iterations_witness :
  fit dataset (init (PInt 1) (PFloat milli) (PInt 0)) =
  (Ok tt,
   mk (PInt 1) (PFloat milli) (PInt 0) (Some [zero; zero]) (Some zero) ∅).
Proof.
  assert (0 ≤ 0)%Z as Hle by lia.
  exact (fit_without_iterations dataset
           (init (PInt 1) (PFloat milli) (PInt 0)) 0 eq_refl Hle).
Defined.

Lemma fit_no_samples_witness :
  fit (mkDataset [] (Some [])) estimator =
  (Raise ZeroDivisionError,
   mk (PInt 1) (PFloat milli) (PInt 3) (Some []) (Some zero) ∅).
Proof.
  assert (0 < 3)%Z as Hpos by lia.
  exact (fit_no_samples (Some []) estimator 3 eq_refl Hpos).
Defined.

Lemma fit_unlabeled_witness :
  fit (mkDataset samples None) estimator =
  (Raise TypeError,
   mk (PInt 1) (PFloat milli) (PInt 3) (Some [zero; zero]) (Some zero) ∅).
Proof.
  assert (0 < 3)%Z as Hpos by lia.
  assert (samples ≠ []) as Hne by done.
  assert (Forall (λ row : list float, length row = ncols samples) samples)
    as Hrows by (repeat constructor).
  exact (fit_unlabeled samples estimator 3 eq_refl Hpos Hne Hrows).
Defined.

Lemma predict_feature_mismatch_witness :
  predict dataset unit_weight = Raise ValueError ∧
  score dataset unit_weight = Raise ValueError.
Proof.
  apply (predict_feature_mismatch dataset unit_weight [num 1] eq_refl).
  left. simpl. lia.
Defined.

Lemma predict_binary_witness :
  predict far unit_weight = Ok [one] ∧
  Forall (λ p, p = zero ∨ p = one) [one] ∧
  (is_Some (theta unit_weight) → length [one] = length (X far)).
Proof.
  assert (predict far unit_weight = Ok [one]) as Hrun
    by (vm_compute; reflexivity).
  split; [done|].
  apply (predict_binary far unit_weight [one] Hrun).
Defined.

Lemma fit_descriptor : KMer.fit sequences descriptor = Return fitted.
Proof. reflexivity. Qed.

Lemma init_descriptor : KMer.init 2 (literal "DNA") = Return descriptor.
Proof. reflexivity. Qed.

Lemma over_example : over (KMer.alphabet fitted) (literal "ACGTAC").
Proof. unfold over. apply (bool_decide_unpack _). by vm_compute. Qed.

Lemma composition_of_sequence_witness :
  KMer.fit sequences descriptor = Return fitted ∧
  literal "ACGTAC" ≠ [] ∧
  over (KMer.alphabet fitted) (literal "ACGTAC") ∧
  ∃ k_mers,
    KMer.k_mers fitted = Some k_mers ∧
    KMer.get_sequence_k_mer_composition fitted (literal "ACGTAC") =
    Return ((λ k_mer,
               div (from_Z (Z.of_nat
                      (occurrences k_mer 2 (literal "ACGTAC"))))
                   (from_Z 6)) <$> k_mers).
Proof.
  assert (literal "ACGTAC" ≠ []) as Hne by done.
  split; [apply fit_descriptor|]. split; [done|].
  split; [apply over_example|].
  exact (composition_of_sequence sequences descriptor fitted
           (literal "ACGTAC") fit_descriptor Hne over_example).
Defined.

Lemma composition_unknown_character_witness :
  KMer.get_sequence_k_mer_composition (F:=float) fitted (literal "ACGNAC") =
  Fail (Exn KeyError).
Proof.
  assert (1 ≤ KMer.k fitted)%Z as Hk by (simpl; lia).
  assert (KMer.k fitted ≤ Z.of_nat (length (literal "ACGNAC")))%Z
    as Hlen by (simpl; lia).
  assert ("N"%char ∈ literal "ACGNAC") as Hin
    by (apply (bool_decide_unpack _); by vm_compute).
  assert ("N"%char ∉ KMer.alphabet fitted) as Hnot
    by (apply (bool_decide_unpack _); by vm_compute).
  exact (composition_unknown_character sequences descriptor fitted
           (literal "ACGNAC") "N"%char fit_descriptor Hk Hlen Hin Hnot).
Defined.

Lemma composition_short_sequence_witness :
  KMer.get_sequence_k_mer_composition fitted (literal "N") =
  Return (replicate 16 (div (from_Z 0) (from_Z 1))).
Proof.
  assert (literal "N" ≠ []) as Hne by done.
  assert (Z.of_nat (length (literal "N")) < KMer.k fitted)%Z
    as Hlen by (simpl; lia).
  exact (composition_short_sequence fitted _ (literal "N") eq_refl Hne Hlen).
Defined.

Lemma composition_empty_sequence_witness :
  KMer.get_sequence_k_mer_composition (F:=float) fitted [] =
  Fail (Exn ZeroDivisionError).
Proof.
  exact (composition_empty_sequence sequences 2 (literal "DNA") descriptor
           fitted init_descriptor fit_descriptor).
Defined.

Lemma transform_before_fit_witness :
  KMer.transform (F:=float) sequences descriptor = Fail (Exn TypeError).
Proof.
  assert (Data.X sequences ≠ []) as Hne by done.
  assert (Forall (λ row : list str, row ≠ []) (Data.X sequences))
    as Hrows by (repeat constructor; done).
  exact (transform_before_fit 2 (literal "DNA") descriptor sequences
           init_descriptor Hne Hrows).
Defined.

Lemma sequences_example :
  Forall (λ row, ∃ sequence, head row = Some sequence ∧ sequence ≠ [] ∧
                             over (KMer.alphabet descriptor) sequence)
         (Data.X sequences).
Proof.
  repeat constructor; eexists; (split; [reflexivity|]); (split; [done|]);
    unfold over; apply (bool_decide_unpack _); by vm_compute.
Qed.

Lemma fit_transform_dataset_witness :
  ∃ d, KMer.fit_transform (F:=float) sequences descriptor =
       Return (fitted, d) ∧
       Data.get_shape d = (2, 16) ∧
       Data.features d = default [] (KMer.k_mers fitted) ∧
       Data.y d = Data.y sequences ∧
       Data.label d = Some (literal "y").
Proof.
  assert (0 ≤ KMer.k descriptor)%Z as Hk by (simpl; lia).
  assert (Data.X sequences ≠ []) as Hne by done.
  destruct (fit_transform_dataset (F:=float) descriptor sequences Hk Hne
              sequences_example)
    as (self & k_mers & d & Hrun & Hfit & Hkms & Hf & Hy & Hl & Hshape & _).
  rewrite fit_descriptor in Hfit. injection Hfit as <-.
  exists d. split; [done|]. split; [done|].
  split; [by rewrite Hkms|]. split; done.
Defined.

Lemma fit_transform_feeds_fit_witness :
  ∃ self d lr',
    KMer.fit_transform sequences descriptor = Return (self, d) ∧
    valid_dataset (core_of d) [num 1; num 0] ∧
    fit (core_of d) estimator = (Ok tt, lr').
Proof.
  assert (0 ≤ KMer.k descriptor)%Z as Hk by (simpl; lia).
  assert (Data.X sequences ≠ []) as Hne by done.
  assert (as_float (alpha estimator) = Ok milli) as Ha by reflexivity.
  assert (as_float (l2_penalty estimator) = Ok (num 1)) as Hl2
    by reflexivity.
  exact (fit_transform_feeds_fit descriptor sequences [num 1; num 0]
           estimator milli (num 1) 3 Hk Hne sequences_example eq_refl
           eq_refl Ha Hl2 eq_refl).
Defined.

Lemma count_windows_total_witness :
  match KMer.count_windows (literal "ACGTAC") 2 (range 5)
          (list_to_map ((λ k_mer, (k_mer, 0%Z)) <$>
                          default [] (KMer.k_mers fitted))) with
  | Return counts => total counts = 5%Z
  | Fail _ => False
  end.
Proof.
  destruct (KMer.count_windows _ _ _ _) as [counts|e] eqn:Hrun.
  - destruct (count_windows_total _ _ _ _ _ Hrun) as (_ & _ & Htotal).
    assert (0 ≤ 2 ≤ Z.of_nat (length (literal "ACGTAC")))%Z as Hk
      by (simpl; lia).
    exact (Htotal _ eq_refl eq_refl Hk).
  - vm_compute in Hrun. discriminate Hrun.
Defined.

Lemma fit_k_mers_witness :
  ∃ k_mers,
    KMer.fit sequences descriptor =
      Return (KMer.mk 2 (literal "ATCG") (Some k_mers)) ∧
    length k_mers = 16 ∧ NoDup k_mers ∧
    (literal "GA" ∈ k_mers) ∧ (literal "GAT" ∉ k_mers) ∧
    KMer.fit sequences (KMer.mk (-1) (literal "ATCG") None) =
      Fail (Exn ValueError).
Proof.
  assert (0 ≤ KMer.k descriptor)%Z as Hk by (simpl; lia).
  assert (NoDup (KMer.alphabet descriptor)) as Hnd
    by (apply (bool_decide_unpack _); by vm_compute).
  assert (over (KMer.alphabet descriptor) (literal "GA")) as Hga
    by (unfold over; apply (bool_decide_unpack _); by vm_compute).
  destruct (proj1 (fit_k_mers sequences descriptor) Hk)
    as (k_mers & Hfit & _ & Hlen & Hdistinct & Hin).
  exists k_mers. split; [exact Hfit|]. split; [exact Hlen|].
  split; [by apply Hdistinct|]. split; [by apply Hin|]. split.
  - intros [Hlength _]%Hin. simpl in Hlength. lia.
  - apply (proj2 (fit_k_mers sequences (KMer.mk (-1) (literal "ATCG") None))).
    simpl. lia.
Defined.

Lemma init_sequence_type_witness :
  KMer.init 3 (literal "Protein") =
    Return (KMer.mk 3 (literal "ACDEFGHIKLMNPQRSTVWY") None) ∧
  KMer.init 3 (literal "rna") =
    Fail (AssertionError
            "Choose a valid sequence type ('dna' or 'protein').").
Proof.
  split.
  - by apply (init_sequence_type 3 (literal "Protein")).
  - by apply (init_sequence_type 3 (literal "rna")).
Defined.
End MoreExamples.
